(** * hikari.audit_logs: payload decoding and backward paging

    A shallow embedding of [src/hikari/audit_logs.py]: the change and entry
    deserialisers, the registry of entry-info classes, and the
    [AuditLogIterator] state machine, followed by the properties the
    specification states about them. *)

From stdpp Require Import gmap strings list fin_maps pretty.

Set Warnings "-register-all,-clear-no-such-hyp".

(** ** Wire values

    Payloads are the objects [json.loads] produces: [None], booleans,
    integers, text, lists and string-keyed dicts.  Floats do not occur in
    the payloads of this endpoint and are left out. *)

Inductive json : Type :=
  | JNull
  | JBool (b : bool)
  | JInt (z : Z)
  | JStr (s : string)
  | JList (l : list json)
  | JObj (m : gmap string json).

(** ** Exceptions and results *)

Inductive exn : Type :=
  | KeyError (k : string)
  | TypeError
  | ValueError
  | AttributeError
  | IndexError
  | OverflowError
  | StopAsyncIteration
  | ExternError (code : nat).

Inductive res (A : Type) : Type :=
  | Ok (a : A)
  | Raise (e : exn).
Arguments Ok {A} a.
Arguments Raise {A} e.

#[global] Instance res_ret : MRet res := λ A a, Ok a.
#[global] Instance res_bind : MBind res :=
  λ A B f r, match r with Ok a => f a | Raise e => Raise e end.
#[global] Instance res_fmap : FMap res :=
  λ A B f r, match r with Ok a => Ok (f a) | Raise e => Raise e end.

(** [map(f, xs)] consumed eagerly: the first failure propagates. *)
Fixpoint map_res {A B : Type} (f : A → res B) (xs : list A) : res (list B) :=
  match xs with
  | [] => Ok []
  | x :: xs' => y ← f x; ys ← map_res f xs'; Ok (y :: ys)
  end.

(** ** Built-ins of the runtime used by the module *)

(** Truth value of an object, as [if x:] and [bool(x)] compute it. *)
Definition truthy (j : json) : bool :=
  match j with
  | JNull => false
  | JBool b => b
  | JInt z => negb (z =? 0)%Z
  | JStr s => match s with EmptyString => false | String _ _ => true end
  | JList l => match l with [] => false | _ :: _ => true end
  | JObj m => negb (size m =? 0)%nat
  end.

(** [payload[k]] with a text key: a dict raises [KeyError] on a missing
    key, every other wire value raises [TypeError]. *)
Definition getitem (payload : json) (k : string) : res json :=
  match payload with
  | JObj m => match m !! k with Some v => Ok v | None => Raise (KeyError k) end
  | _ => Raise TypeError
  end.

(** [payload.get(k)]: [None] on a missing key; only dicts have [get]. *)
Definition get (payload : json) (k : string) : res json :=
  match payload with
  | JObj m => Ok (default JNull (m !! k))
  | _ => Raise AttributeError
  end.

(** Lists and dicts cannot be hashed, hence cannot be looked up in a dict. *)
Definition hashable (j : json) : bool :=
  match j with
  | JList _ | JObj _ => false
  | _ => true
  end.

(** A number in an arithmetic or comparison position ([bool] is an [int]). *)
Definition number (j : json) : res Z :=
  match j with
  | JInt z => Ok z
  | JBool b => Ok (Z.b2z b)
  | _ => Raise TypeError
  end.

(** ** Enumerations *)

Module AuditLogChangeKey.
Inductive t : Type :=
    | NAME | ICON_HASH | SPLASH_HASH | OWNER_ID | REGION | AFK_CHANNEL_ID
    | AFK_TIMEOUT | MFA_LEVEL | VERIFICATION_LEVEL | EXPLICIT_CONTENT_FILTER
    | DEFAULT_MESSAGE_NOTIFICATIONS | VANITY_URL_CODE | ADD_ROLE_TO_MEMBER
    | REMOVE_ROLE_FROM_MEMBER | PRUNE_DELETE_DAYS | WIDGET_ENABLED
    | WIDGET_CHANNEL_ID | POSITION | TOPIC | BITRATE | PERMISSION_OVERWRITES
    | NSFW | APPLICATION_ID | PERMISSIONS | COLOR | HOIST | MENTIONABLE
    | ALLOW | DENY | INVITE_CODE | CHANNEL_ID | INVITER_ID | MAX_USES | USES
    | MAX_AGE | TEMPORARY | DEAF | MUTE | NICK | AVATAR_HASH | ID | TYPE
    | ENABLE_EMOTICONS | EXPIRE_BEHAVIOR | EXPIRE_GRACE_PERIOD
    | RATE_LIMIT_PER_USER | SYSTEM_CHANNEL_ID.

(** [COLOUR = COLOR] is an alias of the same member. *)
Definition COLOUR : t := COLOR.

Definition value (k : t) : string :=
    match k with
    | NAME => "name" | ICON_HASH => "icon_hash" | SPLASH_HASH => "splash_hash"
    | OWNER_ID => "owner_id" | REGION => "region"
    | AFK_CHANNEL_ID => "afk_channel_id" | AFK_TIMEOUT => "afk_timeout"
    | MFA_LEVEL => "mfa_level" | VERIFICATION_LEVEL => "verification_level"
    | EXPLICIT_CONTENT_FILTER => "explicit_content_filter"
    | DEFAULT_MESSAGE_NOTIFICATIONS => "default_message_notifications"
    | VANITY_URL_CODE => "vanity_url_code" | ADD_ROLE_TO_MEMBER => "$add"
    | REMOVE_ROLE_FROM_MEMBER => "$remove"
    | PRUNE_DELETE_DAYS => "prune_delete_days"
    | WIDGET_ENABLED => "widget_enabled"
    | WIDGET_CHANNEL_ID => "widget_channel_id" | POSITION => "position"
    | TOPIC => "topic" | BITRATE => "bitrate"
    | PERMISSION_OVERWRITES => "permission_overwrites" | NSFW => "nsfw"
    | APPLICATION_ID => "application_id" | PERMISSIONS => "permissions"
    | COLOR => "color" | HOIST => "hoist" | MENTIONABLE => "mentionable"
    | ALLOW => "allow" | DENY => "deny" | INVITE_CODE => "code"
    | CHANNEL_ID => "channel_id" | INVITER_ID => "inviter_id"
    | MAX_USES => "max_uses" | USES => "uses" | MAX_AGE => "max_age"
    | TEMPORARY => "temporary" | DEAF => "deaf" | MUTE => "mute"
    | NICK => "nick" | AVATAR_HASH => "avatar_hash" | ID => "id"
    | TYPE => "type" | ENABLE_EMOTICONS => "enable_emoticons"
    | EXPIRE_BEHAVIOR => "expire_behavior"
    | EXPIRE_GRACE_PERIOD => "expire_grace_period"
    | RATE_LIMIT_PER_USER => "rate_limit_per_user"
    | SYSTEM_CHANNEL_ID => "system_channel_id"
    end.

Definition members : list t :=
    [ NAME; ICON_HASH; SPLASH_HASH; OWNER_ID; REGION; AFK_CHANNEL_ID;
      AFK_TIMEOUT; MFA_LEVEL; VERIFICATION_LEVEL; EXPLICIT_CONTENT_FILTER;
      DEFAULT_MESSAGE_NOTIFICATIONS; VANITY_URL_CODE; ADD_ROLE_TO_MEMBER;
      REMOVE_ROLE_FROM_MEMBER; PRUNE_DELETE_DAYS; WIDGET_ENABLED;
      WIDGET_CHANNEL_ID; POSITION; TOPIC; BITRATE; PERMISSION_OVERWRITES;
      NSFW; APPLICATION_ID; PERMISSIONS; COLOR; HOIST; MENTIONABLE; ALLOW;
      DENY; INVITE_CODE; CHANNEL_ID; INVITER_ID; MAX_USES; USES; MAX_AGE;
      TEMPORARY; DEAF; MUTE; NICK; AVATAR_HASH; ID; TYPE; ENABLE_EMOTICONS;
      EXPIRE_BEHAVIOR; EXPIRE_GRACE_PERIOD; RATE_LIMIT_PER_USER;
      SYSTEM_CHANNEL_ID ].

  (** [AuditLogChangeKey(raw)]: look a member up by value; [ValueError]
    when no member has it (only text can equal a member of a [str] enum). *)
Definition cast (raw : json) : res t :=
  match raw with
  | JStr s =>
      match List.find (λ k, String.eqb (value k) s) members with
      | Some k => Ok k
      | None => Raise ValueError
      end
  | _ => Raise ValueError
  end.

(** The name a member is declared under. *)
Definition name (k : t) : string :=
    match k with
    | NAME => "NAME" | ICON_HASH => "ICON_HASH"
    | SPLASH_HASH => "SPLASH_HASH" | OWNER_ID => "OWNER_ID"
    | REGION => "REGION" | AFK_CHANNEL_ID => "AFK_CHANNEL_ID"
    | AFK_TIMEOUT => "AFK_TIMEOUT" | MFA_LEVEL => "MFA_LEVEL"
    | VERIFICATION_LEVEL => "VERIFICATION_LEVEL"
    | EXPLICIT_CONTENT_FILTER => "EXPLICIT_CONTENT_FILTER"
    | DEFAULT_MESSAGE_NOTIFICATIONS => "DEFAULT_MESSAGE_NOTIFICATIONS"
    | VANITY_URL_CODE => "VANITY_URL_CODE"
    | ADD_ROLE_TO_MEMBER => "ADD_ROLE_TO_MEMBER"
    | REMOVE_ROLE_FROM_MEMBER => "REMOVE_ROLE_FROM_MEMBER"
    | PRUNE_DELETE_DAYS => "PRUNE_DELETE_DAYS"
    | WIDGET_ENABLED => "WIDGET_ENABLED"
    | WIDGET_CHANNEL_ID => "WIDGET_CHANNEL_ID" | POSITION => "POSITION"
    | TOPIC => "TOPIC" | BITRATE => "BITRATE"
    | PERMISSION_OVERWRITES => "PERMISSION_OVERWRITES" | NSFW => "NSFW"
    | APPLICATION_ID => "APPLICATION_ID" | PERMISSIONS => "PERMISSIONS"
    | COLOR => "COLOR" | HOIST => "HOIST" | MENTIONABLE => "MENTIONABLE"
    | ALLOW => "ALLOW" | DENY => "DENY" | INVITE_CODE => "INVITE_CODE"
    | CHANNEL_ID => "CHANNEL_ID" | INVITER_ID => "INVITER_ID"
    | MAX_USES => "MAX_USES" | USES => "USES" | MAX_AGE => "MAX_AGE"
    | TEMPORARY => "TEMPORARY" | DEAF => "DEAF" | MUTE => "MUTE"
    | NICK => "NICK" | AVATAR_HASH => "AVATAR_HASH" | ID => "ID"
    | TYPE => "TYPE" | ENABLE_EMOTICONS => "ENABLE_EMOTICONS"
    | EXPIRE_BEHAVIOR => "EXPIRE_BEHAVIOR"
    | EXPIRE_GRACE_PERIOD => "EXPIRE_GRACE_PERIOD"
    | RATE_LIMIT_PER_USER => "RATE_LIMIT_PER_USER"
    | SYSTEM_CHANNEL_ID => "SYSTEM_CHANNEL_ID"
    end.

(** [__str__] returns [self.name], and [__repr__ = __str__]. *)
Definition __str__ (self : t) : string := name self.
Definition __repr__ : t → string := __str__.
End AuditLogChangeKey.

Module AuditLogEventType.
Inductive t : Type :=
    | GUILD_UPDATE | CHANNEL_CREATE | CHANNEL_UPDATE | CHANNEL_DELETE
    | CHANNEL_OVERWRITE_CREATE | CHANNEL_OVERWRITE_UPDATE
    | CHANNEL_OVERWRITE_DELETE | MEMBER_KICK | MEMBER_PRUNE | MEMBER_BAN_ADD
    | MEMBER_BAN_REMOVE | MEMBER_UPDATE | MEMBER_ROLE_UPDATE | MEMBER_MOVE
    | MEMBER_DISCONNECT | BOT_ADD | ROLE_CREATE | ROLE_UPDATE | ROLE_DELETE
    | INVITE_CREATE | INVITE_UPDATE | INVITE_DELETE | WEBHOOK_CREATE
    | WEBHOOK_UPDATE | WEBHOOK_DELETE | EMOJI_CREATE | EMOJI_UPDATE
    | EMOJI_DELETE | MESSAGE_DELETE | MESSAGE_BULK_DELETE | MESSAGE_PIN
    | MESSAGE_UNPIN | INTEGRATION_CREATE | INTEGRATION_UPDATE
    | INTEGRATION_DELETE.

Definition value (e : t) : Z :=
    match e with
    | GUILD_UPDATE => 1 | CHANNEL_CREATE => 10 | CHANNEL_UPDATE => 11
    | CHANNEL_DELETE => 12 | CHANNEL_OVERWRITE_CREATE => 13
    | CHANNEL_OVERWRITE_UPDATE => 14 | CHANNEL_OVERWRITE_DELETE => 15
    | MEMBER_KICK => 20 | MEMBER_PRUNE => 21 | MEMBER_BAN_ADD => 22
    | MEMBER_BAN_REMOVE => 23 | MEMBER_UPDATE => 24
    | MEMBER_ROLE_UPDATE => 25 | MEMBER_MOVE => 26 | MEMBER_DISCONNECT => 27
    | BOT_ADD => 28 | ROLE_CREATE => 30 | ROLE_UPDATE => 31
    | ROLE_DELETE => 32 | INVITE_CREATE => 40 | INVITE_UPDATE => 41
    | INVITE_DELETE => 42 | WEBHOOK_CREATE => 50 | WEBHOOK_UPDATE => 51
    | WEBHOOK_DELETE => 52 | EMOJI_CREATE => 60 | EMOJI_UPDATE => 61
    | EMOJI_DELETE => 62 | MESSAGE_DELETE => 72 | MESSAGE_BULK_DELETE => 73
    | MESSAGE_PIN => 74 | MESSAGE_UNPIN => 75 | INTEGRATION_CREATE => 80
    | INTEGRATION_UPDATE => 81 | INTEGRATION_DELETE => 82
    end.

Definition members : list t :=
    [ GUILD_UPDATE; CHANNEL_CREATE; CHANNEL_UPDATE; CHANNEL_DELETE;
      CHANNEL_OVERWRITE_CREATE; CHANNEL_OVERWRITE_UPDATE;
      CHANNEL_OVERWRITE_DELETE; MEMBER_KICK; MEMBER_PRUNE; MEMBER_BAN_ADD;
      MEMBER_BAN_REMOVE; MEMBER_UPDATE; MEMBER_ROLE_UPDATE; MEMBER_MOVE;
      MEMBER_DISCONNECT; BOT_ADD; ROLE_CREATE; ROLE_UPDATE; ROLE_DELETE;
      INVITE_CREATE; INVITE_UPDATE; INVITE_DELETE; WEBHOOK_CREATE;
      WEBHOOK_UPDATE; WEBHOOK_DELETE; EMOJI_CREATE; EMOJI_UPDATE;
      EMOJI_DELETE; MESSAGE_DELETE; MESSAGE_BULK_DELETE; MESSAGE_PIN;
      MESSAGE_UNPIN; INTEGRATION_CREATE; INTEGRATION_UPDATE;
      INTEGRATION_DELETE ].

Definition of_value (z : Z) : option t :=
    List.find (λ e, (value e =? z)%Z) members.

  (** [AuditLogEventType(raw)]: look a member up by value; [ValueError] when
    no member has it.  Members of an [IntEnum] compare equal to integers,
    hence to booleans as well. *)
Definition cast (raw : json) : res t :=
  match raw with
  | JInt z => match of_value z with Some e => Ok e | None => Raise ValueError end
  | JBool b =>
      match of_value (Z.b2z b) with Some e => Ok e | None => Raise ValueError end
  | _ => Raise ValueError
  end.
End AuditLogEventType.

(** ** External collaborators

    Entities of other hikari modules ([bases], [guilds], [channels],
    [users], [webhooks], [permissions], [colors]) are consumed through
    their constructors and [deserialize] class methods only.  They are
    kept abstract, together with the few runtime functions whose result
    depends on text parsing or on dict insertion order. *)

Inductive extern_fn : Type :=
  | GuildMFALevel | GuildVerificationLevel | GuildExplicitContentFilterLevel
  | GuildMessageNotificationsLevel | IntegrationExpireBehaviour
  | PartialGuildRole_deserialize | PermissionOverwrite_deserialize
  | PermissionOverwriteType | Permission | Color
  | User_deserialize | Webhook_deserialize | PartialGuildIntegration_deserialize.

Class Collaborators : Type := {
  (** [bases.Snowflake], its [deserialize] and its [__str__] *)
  Snowflake : Type;
  Snowflake_eq_dec :: EqDecision Snowflake;
  Snowflake_countable :: Countable Snowflake;
  Snowflake_deserialize : json → res Snowflake;
  Snowflake_str : Snowflake → string;
  (** objects built by the other modules, and their [id] attribute *)
  extern : Type;
  extern_call : extern_fn → json → res extern;
  extern_id : extern → Snowflake;
  (** [int(text)], [str(x)] and the order in which a dict yields its keys *)
  int_of_text : string → res Z;
  py_str : json → string;
  iter_keys : gmap string json → list string;
}.

(** Dict objects that are shared and copied live in a store ([store]) and
    are referred to by address ([ref]), so that a reference handed out
    earlier can be compared with the current one. *)
Abbreviation ref := nat (only parsing).
Abbreviation store := (list (gmap Snowflake extern)) (only parsing).

Section audit_logs.
Context `{Collaborators}.

(** Values an attribute can hold after conversion.  Whatever is still a
    wire value (including [None], and the results of [int], [str] and
    [bool]) stays a [json]. *)
Inductive pyvalue : Type :=
  | VJson (j : json)
  | VInf
  | VTimedelta (seconds : Z)
  | VSnowflake (s : Snowflake)
  | VExtern (x : extern)
  | VDict (m : gmap Snowflake extern).

Definition VNone : pyvalue := VJson JNull.

Definition is_None (j : json) : bool :=
  match j with JNull => true | _ => false end.

(** [int(x)] *)
Definition py_int (j : json) : res Z :=
  match j with
  | JInt z => Ok z
  | JBool b => Ok (Z.b2z b)
  | JStr s => int_of_text s
  | _ => Raise TypeError
  end.

(** [iter(x)]: lists yield their items, text its characters, dicts their
    keys; [None] and numbers are not iterable. *)
Definition py_iter (j : json) : res (list json) :=
  match j with
  | JList l => Ok l
  | JStr s => Ok ((λ c, JStr (String c EmptyString)) <$> String.list_ascii_of_string s)
  | JObj m => Ok (JStr <$> iter_keys m)
  | _ => Raise TypeError
  end.

(** [datetime.timedelta(seconds=s)], kept as a number of seconds; the day
    count of a timedelta is bounded in magnitude by 999999999. *)
Definition timedelta_seconds (s : Z) : res pyvalue :=
  if ((-999999999 <=? s `div` 86400) && (s `div` 86400 <=? 999999999))%Z
  then Ok (VTimedelta s) else Raise OverflowError.

Definition timedelta_days (d : Z) : res pyvalue :=
  if ((-999999999 <=? d) && (d <=? 999999999))%Z
  then Ok (VTimedelta (86400 * d)) else Raise OverflowError.

(** [{x.id: x for x in map(f, payload)}]: a later item replaces an earlier
    one with the same id. *)
Definition dict_by_id (f : extern_fn) (payload : json) : res (gmap Snowflake extern) :=
  items ← py_iter payload;
  xs ← map_res (extern_call f) items;
  Ok (foldl (λ d x, <[extern_id x := x]> d) ∅ xs).

(** *** Change converters, [AUDIT_LOG_ENTRY_CONVERTERS] *)

Definition converter : Type := json → res pyvalue.

Definition conv_snowflake : converter :=
  λ payload, VSnowflake <$> Snowflake_deserialize payload.
Definition conv_extern (f : extern_fn) : converter :=
  λ payload, VExtern <$> extern_call f payload.
Definition conv_int : converter := λ payload, (λ z, VJson (JInt z)) <$> py_int payload.
Definition conv_str : converter := λ payload, Ok (VJson (JStr (py_str payload))).
Definition conv_bool : converter := λ payload, Ok (VJson (JBool (truthy payload))).
Definition conv_seconds : converter := λ payload, s ← number payload; timedelta_seconds s.
Definition conv_days : converter := λ payload, d ← number payload; timedelta_days d.
Definition conv_int_days : converter := λ payload, d ← py_int payload; timedelta_days d.
Definition conv_dict (f : extern_fn) : converter :=
  λ payload, VDict <$> dict_by_id f payload.

(** [lambda payload: int(payload) if payload > 0 else float("inf")] *)
Definition conv_max_uses : converter :=
  λ payload,
    n ← number payload;
    if (0 <? n)%Z then (λ z, VJson (JInt z)) <$> py_int payload else Ok VInf.

(** [lambda payload: datetime.timedelta(seconds=payload) if payload > 0 else None] *)
Definition conv_max_age : converter :=
  λ payload,
    n ← number payload;
    if (0 <? n)%Z then timedelta_seconds n else Ok VNone.

Definition AUDIT_LOG_ENTRY_CONVERTERS (k : AuditLogChangeKey.t) : option converter :=
  match k with
  | AuditLogChangeKey.OWNER_ID => Some conv_snowflake
  | AuditLogChangeKey.AFK_CHANNEL_ID => Some conv_snowflake
  | AuditLogChangeKey.AFK_TIMEOUT => Some conv_seconds
  | AuditLogChangeKey.MFA_LEVEL => Some (conv_extern GuildMFALevel)
  | AuditLogChangeKey.VERIFICATION_LEVEL => Some (conv_extern GuildVerificationLevel)
  | AuditLogChangeKey.EXPLICIT_CONTENT_FILTER =>
      Some (conv_extern GuildExplicitContentFilterLevel)
  | AuditLogChangeKey.DEFAULT_MESSAGE_NOTIFICATIONS =>
      Some (conv_extern GuildMessageNotificationsLevel)
  | AuditLogChangeKey.ADD_ROLE_TO_MEMBER => Some (conv_dict PartialGuildRole_deserialize)
  | AuditLogChangeKey.REMOVE_ROLE_FROM_MEMBER =>
      Some (conv_dict PartialGuildRole_deserialize)
  | AuditLogChangeKey.PRUNE_DELETE_DAYS => Some conv_int_days
  | AuditLogChangeKey.WIDGET_CHANNEL_ID => Some conv_snowflake
  | AuditLogChangeKey.POSITION => Some conv_int
  | AuditLogChangeKey.BITRATE => Some conv_int
  | AuditLogChangeKey.PERMISSION_OVERWRITES =>
      Some (conv_dict PermissionOverwrite_deserialize)
  | AuditLogChangeKey.APPLICATION_ID => Some conv_snowflake
  | AuditLogChangeKey.PERMISSIONS => Some (conv_extern Permission)
  | AuditLogChangeKey.COLOR => Some (conv_extern Color)
  | AuditLogChangeKey.ALLOW => Some (conv_extern Permission)
  | AuditLogChangeKey.DENY => Some (conv_extern Permission)
  | AuditLogChangeKey.CHANNEL_ID => Some conv_snowflake
  | AuditLogChangeKey.INVITER_ID => Some conv_snowflake
  | AuditLogChangeKey.MAX_USES => Some conv_max_uses
  | AuditLogChangeKey.USES => Some conv_int
  | AuditLogChangeKey.MAX_AGE => Some conv_max_age
  | AuditLogChangeKey.ID => Some conv_snowflake
  | AuditLogChangeKey.TYPE => Some conv_str
  | AuditLogChangeKey.ENABLE_EMOTICONS => Some conv_bool
  | AuditLogChangeKey.EXPIRE_BEHAVIOR => Some (conv_extern IntegrationExpireBehaviour)
  | AuditLogChangeKey.EXPIRE_GRACE_PERIOD => Some conv_days
  | AuditLogChangeKey.RATE_LIMIT_PER_USER => Some conv_seconds
  | AuditLogChangeKey.SYSTEM_CHANNEL_ID => Some conv_snowflake
  | _ => None
  end.

(** *** [AuditLogChange] *)

Inductive change_key : Type :=
  | KnownKey (k : AuditLogChangeKey.t)
  | RawKey (raw : json).

Record AuditLogChange : Type := {
  change_new_value : pyvalue;
  change_old_value : pyvalue;
  change_key_of : change_key;
}.

(** Modelled from the spec: [hikari.internal.conversions.try_cast] is not
    among the sources.  The spec has the key resolved "against a known-key
    enumeration, falling back to the raw string if unrecognized": the cast
    is attempted and any failure yields the default. *)
Definition try_cast {A : Type} (value : json) (cast : json → res A) (default : A) : A :=
  match cast value with
  | Ok v => v
  | Raise _ => default
  end.

(** [AUDIT_LOG_ENTRY_CONVERTERS.get(key)]: members are found by identity,
    a raw key that is no member's value is not in the dict, and hashing a
    list or a dict fails. *)
Definition AUDIT_LOG_ENTRY_CONVERTERS_get (key : change_key) : res (option converter) :=
  match key with
  | KnownKey k => Ok (AUDIT_LOG_ENTRY_CONVERTERS k)
  | RawKey (JList _) | RawKey (JObj _) => Raise TypeError
  | RawKey _ => Ok None
  end.

Definition AuditLogChange_deserialize (payload : json) : res AuditLogChange :=
  raw_key ← getitem payload "key";
  let key := try_cast raw_key (λ v, KnownKey <$> AuditLogChangeKey.cast v) (RawKey raw_key) in
  new_value ← get payload "new_value";
  old_value ← get payload "old_value";
  value_converter ← AUDIT_LOG_ENTRY_CONVERTERS_get key;
  match value_converter with
  | Some conv =>
      new_value' ← (if is_None new_value then Ok VNone else conv new_value);
      old_value' ← (if is_None old_value then Ok VNone else conv old_value);
      Ok {| change_key_of := key;
            change_new_value := new_value';
            change_old_value := old_value' |}
  | None =>
      Ok {| change_key_of := key;
            change_new_value := VJson new_value;
            change_old_value := VJson old_value |}
  end.

(** *** Entry-info classes and their registry *)

Inductive entry_info_class : Type :=
  | ChannelOverwriteEntryInfo
  | MessagePinEntryInfo
  | MemberPruneEntryInfo
  | MessageBulkDeleteEntryInfo
  | MessageDeleteEntryInfo
  | MemberDisconnectEntryInfo
  | MemberMoveEntryInfo
  | UnrecognisedAuditLogEntryInfo.

(** The function attribute [register_audit_log_entry_info.types]: absent
    until the first decorator runs, then a dict keyed by event type. *)
Definition registry : Type := option (gmap Z entry_info_class).

(** [register_audit_log_entry_info(type_, *additional_types)(cls)] as a
    transformer of the attribute. *)
Definition register_audit_log_entry_info
    (type_ : AuditLogEventType.t) (additional_types : list AuditLogEventType.t)
    (cls : entry_info_class) (types : registry) : registry :=
  let mapping := default ∅ types in
  Some (foldl (λ mapping t, <[AuditLogEventType.value t := cls]> mapping)
              mapping (type_ :: additional_types)).

(** The attribute once the module body has run, decorators in file order. *)
Definition module_types : registry :=
  let r0 : registry := None in
  let r1 := register_audit_log_entry_info AuditLogEventType.CHANNEL_OVERWRITE_CREATE
              [AuditLogEventType.CHANNEL_OVERWRITE_UPDATE;
               AuditLogEventType.CHANNEL_OVERWRITE_DELETE]
              ChannelOverwriteEntryInfo r0 in
  let r2 := register_audit_log_entry_info AuditLogEventType.MESSAGE_PIN
              [AuditLogEventType.MESSAGE_UNPIN] MessagePinEntryInfo r1 in
  let r3 := register_audit_log_entry_info AuditLogEventType.MEMBER_PRUNE []
              MemberPruneEntryInfo r2 in
  let r4 := register_audit_log_entry_info AuditLogEventType.MESSAGE_BULK_DELETE []
              MessageBulkDeleteEntryInfo r3 in
  let r5 := register_audit_log_entry_info AuditLogEventType.MESSAGE_DELETE []
              MessageDeleteEntryInfo r4 in
  let r6 := register_audit_log_entry_info AuditLogEventType.MEMBER_DISCONNECT []
              MemberDisconnectEntryInfo r5 in
  register_audit_log_entry_info AuditLogEventType.MEMBER_MOVE []
    MemberMoveEntryInfo r6.

Inductive action_type_t : Type :=
  | KnownType (t : AuditLogEventType.t)
  | RawType (raw : json).

(** [types.get(type_)]: an [IntEnum] member hashes and compares as its
    integer value (so do [bool]s); text and [None] are hashable but equal
    to no integer key; lists and dicts cannot be hashed. *)
Definition types_get (types : gmap Z entry_info_class) (type_ : action_type_t)
    : res (option entry_info_class) :=
  match type_ with
  | KnownType t => Ok (types !! AuditLogEventType.value t)
  | RawType (JInt z) => Ok (types !! z)
  | RawType (JBool b) => Ok (types !! Z.b2z b)
  | RawType (JList _) | RawType (JObj _) => Raise TypeError
  | RawType _ => Ok None
  end.

Definition get_entry_info_entity (types : registry) (type_ : action_type_t)
    : res entry_info_class :=
  entry_type ← types_get (default ∅ types) type_;
  Ok (match entry_type with
      | Some cls => cls
      | None => UnrecognisedAuditLogEntryInfo
      end).

(** An instance of an entry-info class: its class and its attributes. *)
Record entry_info : Type := {
  info_class : entry_info_class;
  info_attrs : gmap string pyvalue;
}.

(** One [marshaller.attrib(...)] declaration. *)
Record attrib : Type := {
  raw_name : string;
  deserializer : converter;
  if_undefined : option pyvalue;
}.

Definition required (name : string) (d : converter) : attrib :=
  {| raw_name := name; deserializer := d; if_undefined := None |}.

(** The attributes each class declares, inherited ones first. *)
Definition attribs (cls : entry_info_class) : list attrib :=
  match cls with
  | ChannelOverwriteEntryInfo =>
      [ required "id" conv_snowflake;
        required "type" (conv_extern PermissionOverwriteType);
        {| raw_name := "role_name"; deserializer := conv_str;
           if_undefined := Some VNone |} ]
  | MessagePinEntryInfo =>
      [ required "channel_id" conv_snowflake;
        required "message_id" conv_snowflake ]
  | MemberPruneEntryInfo =>
      [ required "delete_member_days" conv_int_days;
        required "members_removed" conv_int ]
  | MessageBulkDeleteEntryInfo => [ required "count" conv_int ]
  | MessageDeleteEntryInfo =>
      [ required "count" conv_int; required "channel_id" conv_snowflake ]
  | MemberDisconnectEntryInfo => [ required "count" conv_int ]
  | MemberMoveEntryInfo =>
      [ required "count" conv_int; required "channel_id" conv_snowflake ]
  | UnrecognisedAuditLogEntryInfo => []
  end.

(** Modelled from the spec: [hikari.internal.marshaller] is not among the
    sources.  The spec has [VariantClass.deserialize(payload)] convert "a
    raw key/value mapping into typed attributes per the variant's own field
    converters": each declared attribute is read under its raw name and
    passed to its deserializer; an attribute that is missing takes its
    [if_undefined] value when it declares one; a missing or null attribute
    without one, or a failing deserializer, fails the whole call. *)
Fixpoint marshaller_deserialize (attrs : list attrib) (payload : gmap string json)
    : res (gmap string pyvalue) :=
  match attrs with
  | [] => Ok ∅
  | a :: rest =>
      v ← match payload !! raw_name a with
          | None =>
              match if_undefined a with
              | Some d => Ok d
              | None => Raise AttributeError
              end
          | Some JNull => Raise AttributeError
          | Some raw => deserializer a raw
          end;
      kwargs ← marshaller_deserialize rest payload;
      Ok (<[raw_name a := v]> kwargs)
  end.

(** [cls.deserialize(payload)].  The fallback class sets every raw key as
    an attribute, [self.__dict__.update(payload)]; the payload is a mapping
    by its annotation, any other value is rejected here. *)
Definition entry_info_deserialize (cls : entry_info_class) (payload : json)
    : res entry_info :=
  match payload with
  | JObj m =>
      match cls with
      | UnrecognisedAuditLogEntryInfo =>
          Ok {| info_class := cls; info_attrs := VJson <$> m |}
      | _ =>
          kwargs ← marshaller_deserialize (attribs cls) m;
          Ok {| info_class := cls; info_attrs := kwargs |}
      end
  | _ => Raise TypeError
  end.

(** *** [AuditLogEntry] *)

Record AuditLogEntry : Type := {
  entry_id : Snowflake;
  entry_target_id : pyvalue;
  entry_changes : list AuditLogChange;
  entry_user_id : Snowflake;
  entry_action_type : action_type_t;
  entry_options : option entry_info;
  entry_reason : json;
}.

Definition AuditLogEntry_deserialize (payload : json) : res AuditLogEntry :=
  raw_type ← getitem payload "action_type";
  let action_type :=
    try_cast raw_type (λ v, KnownType <$> AuditLogEventType.cast v) (RawType raw_type) in
  target_raw ← get payload "target_id";
  target_id ← (if truthy target_raw
               then VSnowflake <$> Snowflake_deserialize target_raw
               else Ok (VJson target_raw));
  options_raw ← get payload "options";
  options ← (if is_None options_raw then Ok None
             else option_converter ← get_entry_info_entity module_types action_type;
                  Some <$> entry_info_deserialize option_converter options_raw);
  changes_raw ← (match payload with
                 | JObj m => Ok (default (JList []) (m !! "changes"))
                 | _ => Raise AttributeError
                 end);
  change_payloads ← py_iter changes_raw;
  changes ← map_res AuditLogChange_deserialize change_payloads;
  user_raw ← getitem payload "user_id";
  user_id ← Snowflake_deserialize user_raw;
  id_raw ← getitem payload "id";
  id ← Snowflake_deserialize id_raw;
  reason ← get payload "reason";
  Ok {| entry_id := id;
        entry_target_id := target_id;
        entry_changes := changes;
        entry_user_id := user_id;
        entry_action_type := action_type;
        entry_options := options;
        entry_reason := reason |}.

(** *** [AuditLog]

    The deserialisers of its four attributes, each a dict comprehension
    over the decoded items of a list. *)

(** [{entry.id: entry for entry in map(AuditLogEntry.deserialize, payload)}] *)
Definition AuditLog_entries (payload : json) : res (gmap Snowflake AuditLogEntry) :=
  items ← py_iter payload;
  entries ← map_res AuditLogEntry_deserialize items;
  Ok (foldl (λ d entry, <[entry_id entry := entry]> d) ∅ entries).

Definition AuditLog_integrations : json → res (gmap Snowflake extern) :=
  dict_by_id PartialGuildIntegration_deserialize.
Definition AuditLog_users : json → res (gmap Snowflake extern) :=
  dict_by_id User_deserialize.
Definition AuditLog_webhooks : json → res (gmap Snowflake extern) :=
  dict_by_id Webhook_deserialize.

(** *** [AuditLogIterator] *)

(** Keyword arguments of one call of the injected request function.
    [None] in an optional position is the unset marker [...]. *)
Record request_args : Type := {
  arg_guild_id : string;
  arg_user_id : option string;
  arg_action_type : option Z;
  arg_before : option string;
  arg_limit : Z;
}.

(** The injected [request] coroutine: it answers from a state of its own
    (the session, the remote log), which the iterator never inspects. *)
Class Session : Type := {
  world : Type;
  request : request_args → world → res json * world;
}.

Context `{Session}.

Record AuditLogIterator : Type := {
  _kwargs : string * option string * option Z;
  _limit : option Z;
  _buffer : list json;
  _front : option string;
  integrations : ref;
  users : ref;
  webhooks : ref;
}.

(** The iterator, the store of dict objects, the state behind [request]
    and the log of the calls made to it so far. *)
Record state : Type := {
  self : AuditLogIterator;
  heap : store;
  session : world;
  calls : list request_args;
}.

Definition action (A : Type) : Type := state → res A * state.

#[local] Instance action_ret : MRet action := λ A a σ, (Ok a, σ).
#[local] Instance action_bind : MBind action :=
  λ A B f c σ,
    match c σ with
    | (Ok a, σ') => f a σ'
    | (Raise e, σ') => (Raise e, σ')
    end.

Definition lift {A : Type} (r : res A) : action A := λ σ, (r, σ).
Definition get_self : action AuditLogIterator := λ σ, (Ok (self σ), σ).
Definition set_self (f : AuditLogIterator → AuditLogIterator) : action unit :=
  λ σ, (Ok (), {| self := f (self σ); heap := heap σ;
                 session := session σ; calls := calls σ |}).

(** [try: body except IndexError: raise StopAsyncIteration]; what the body
    did to the state before failing stays done. *)
Definition except_IndexError {A : Type} (body : action A) : action A :=
  λ σ,
    match body σ with
    | (Raise IndexError, σ') => (Raise StopAsyncIteration, σ')
    | r => r
    end.

(** [await self._request(...)]: the call is logged, then answered. *)
Definition await_request (args : request_args) : action json :=
  λ σ,
    let '(r, w) := request args (session σ) in
    (r, {| self := self σ; heap := heap σ; session := w;
           calls := calls σ ++ [args] |}).

(** [copy.copy(d)]: a new dict object with the items of the old one. *)
Definition copy_dict (r : ref) : action ref :=
  λ σ,
    (Ok (length (heap σ)),
     {| self := self σ; heap := heap σ ++ [default ∅ (heap σ !! r)];
        session := session σ; calls := calls σ |}).

(** [d.update(items)] on the object at [r], in place. *)
Definition dict_update (r : ref) (items : gmap Snowflake extern) : action unit :=
  λ σ,
    (Ok (),
     {| self := self σ;
        heap := <[r := items ∪ default ∅ (heap σ !! r)]> (heap σ);
        session := session σ; calls := calls σ |}).

Definition with_limit (l : option Z) (it : AuditLogIterator) : AuditLogIterator :=
  {| _kwargs := _kwargs it; _limit := l; _buffer := _buffer it;
     _front := _front it; integrations := integrations it;
     users := users it; webhooks := webhooks it |}.
Definition with_buffer (b : list json) (it : AuditLogIterator) : AuditLogIterator :=
  {| _kwargs := _kwargs it; _limit := _limit it; _buffer := b;
     _front := _front it; integrations := integrations it;
     users := users it; webhooks := webhooks it |}.
Definition with_front (f : option string) (it : AuditLogIterator) : AuditLogIterator :=
  {| _kwargs := _kwargs it; _limit := _limit it; _buffer := _buffer it;
     _front := f; integrations := integrations it;
     users := users it; webhooks := webhooks it |}.
Definition with_users (r : ref) (it : AuditLogIterator) : AuditLogIterator :=
  {| _kwargs := _kwargs it; _limit := _limit it; _buffer := _buffer it;
     _front := _front it; integrations := integrations it;
     users := r; webhooks := webhooks it |}.
Definition with_webhooks (r : ref) (it : AuditLogIterator) : AuditLogIterator :=
  {| _kwargs := _kwargs it; _limit := _limit it; _buffer := _buffer it;
     _front := _front it; integrations := integrations it;
     users := users it; webhooks := r |}.
Definition with_integrations (r : ref) (it : AuditLogIterator) : AuditLogIterator :=
  {| _kwargs := _kwargs it; _limit := _limit it; _buffer := _buffer it;
     _front := _front it; integrations := r;
     users := users it; webhooks := webhooks it |}.

(** [len(x)] and [x.reverse()] *)
Definition py_len (j : json) : res Z :=
  match j with
  | JList l => Ok (Z.of_nat (length l))
  | JStr s => Ok (Z.of_nat (String.length s))
  | JObj m => Ok (Z.of_nat (size m))
  | _ => Raise TypeError
  end.

Definition list_reverse (j : json) : res (list json) :=
  match j with
  | JList l => Ok (reverse l)
  | _ => Raise AttributeError
  end.

(** [l.pop()]: the last item, [IndexError] on an empty list. *)
Definition list_pop {A : Type} (l : list A) : res (A * list A) :=
  match reverse l with
  | [] => Raise IndexError
  | x :: r => Ok (x, reverse r)
  end.

(** [__init__]: three fresh empty dicts, nothing requested yet. *)
Definition AuditLogIterator_init (guild_id : string) (w : world)
    (before : option string) (user_id : option string)
    (action_type : option Z) (limit : option Z) : state :=
  {| self := {| _kwargs := (guild_id, user_id, action_type);
                _limit := limit;
                _buffer := [];
                _front := before;
                users := 0; webhooks := 1; integrations := 2 |};
     heap := [∅; ∅; ∅];
     session := w;
     calls := [] |}.

(** The page size asked for:
    [100 if self._limit is None or self._limit > 100 else self._limit]. *)
Definition page_limit (limit : option Z) : Z :=
  match limit with
  | None => 100
  | Some n => if (100 <? n)%Z then 100 else n
  end.

Definition fill_args (it : AuditLogIterator) : request_args :=
  {| arg_guild_id := (_kwargs it).1.1;
     arg_user_id := (_kwargs it).1.2;
     arg_action_type := (_kwargs it).2;
     arg_before := _front it;
     arg_limit := page_limit (_limit it) |}.

(** One of the three [if xs := payload.get(...)] blocks of [_fill]. *)
Definition merge (field : AuditLogIterator → ref)
    (set_field : ref → AuditLogIterator → AuditLogIterator)
    (f : extern_fn) (raw : json) : action unit :=
  if truthy raw then
    it ← get_self;
    fresh ← copy_dict (field it);
    set_self (set_field fresh);;
    items ← lift (dict_by_id f raw);
    dict_update fresh items
  else mret ().

Definition _fill : action unit :=
  it ← get_self;
  payload ← await_request (fill_args it);
  match _limit it with
  | Some n =>
      entries ← lift (getitem payload "audit_log_entries");
      len ← lift (py_len entries);
      set_self (with_limit (Some (n - len)%Z))
  | None => mret ()
  end;;
  entries ← lift (getitem payload "audit_log_entries");
  reversed ← lift (list_reverse entries);
  it ← get_self;
  set_self (with_buffer (_buffer it ++ reversed));;
  users_raw ← lift (get payload "users");
  merge users with_users User_deserialize users_raw;;
  webhooks_raw ← lift (get payload "webhooks");
  merge webhooks with_webhooks Webhook_deserialize webhooks_raw;;
  integrations_raw ← lift (get payload "integrations");
  merge integrations with_integrations PartialGuildIntegration_deserialize integrations_raw.

Definition limit_nonzero (limit : option Z) : bool :=
  match limit with
  | None => true
  | Some n => negb (n =? 0)%Z
  end.

Definition __anext__ : action AuditLogEntry :=
  it ← get_self;
  (if bool_decide (_buffer it = []) && limit_nonzero (_limit it)
   then _fill else mret ());;
  except_IndexError (
    it ← get_self;
    popped ← lift (list_pop (_buffer it));
    set_self (with_buffer popped.2);;
    entry ← lift (AuditLogEntry_deserialize popped.1);
    set_self (with_front (Some (Snowflake_str (entry_id entry))));;
    mret entry).

(** [async for entry in iterator]: [__anext__] is called until it raises.
    The result is what was yielded, the exception that ended the loop
    ([None] while the loop is still running after [n] rounds), and the
    state reached. *)
Fixpoint async_for (n : nat) (σ : state) : list AuditLogEntry * option exn * state :=
  match n with
  | O => ([], None, σ)
  | S n' =>
      match __anext__ σ with
      | (Ok entry, σ') =>
          let '(entries, stop, σ'') := async_for n' σ' in
          (entry :: entries, stop, σ'')
      | (Raise e, σ') => ([], Some e, σ')
      end
  end.

(** *** Vocabulary of the statements

    Named pieces of the functions above, and the predicates in which the
    properties below are stated. *)

(** A change decoded without any conversion: raw key, raw values. *)
Definition raw_change (cm : gmap string json) : AuditLogChange :=
  {| change_key_of := RawKey (default JNull (cm !! "key"));
     change_new_value := VJson (default JNull (cm !! "new_value"));
     change_old_value := VJson (default JNull (cm !! "old_value")) |}.

(** The change payload has a text key that is no member of
    [AuditLogChangeKey]. *)
Definition unknown_key (cm : gmap string json) : Prop :=
  ∃ s, cm !! "key" = Some (JStr s) ∧
       AuditLogChangeKey.cast (JStr s) = Raise ValueError.

(** The effect of one [if xs := payload.get(...)] block that ran: a new
    dict object holding the old items overlaid with the new ones, and the
    attribute pointing at it. *)
Definition alloc_field (field : AuditLogIterator → ref)
    (set_field : ref → AuditLogIterator → AuditLogIterator)
    (items : gmap Snowflake extern) (σ : state) : state :=
  {| self := set_field (length (heap σ)) (self σ);
     heap := heap σ ++ [items ∪ default ∅ (heap σ !! field (self σ))];
     session := session σ;
     calls := calls σ |}.

(** The effect of such a block, whether it ran ([Some d]) or not. *)
Definition merge_result (field : AuditLogIterator → ref)
    (set_field : ref → AuditLogIterator → AuditLogIterator)
    (items : option (gmap Snowflake extern)) (σ : state) : state :=
  match items with
  | Some d => alloc_field field set_field d σ
  | None => σ
  end.

(** What a page says about one of its side lists: either it is falsy and
    nothing is merged, or it decodes to [d]. *)
Definition side (p : gmap string json) (k : string) (f : extern_fn)
    (items : option (gmap Snowflake extern)) : Prop :=
  match items with
  | Some d => truthy (default JNull (p !! k)) = true ∧
              dict_by_id f (default JNull (p !! k)) = Ok d
  | None => truthy (default JNull (p !! k)) = false
  end.

(** The iterator once a page with entries [es] was received: the budget,
    when there is one, reduced by their number, and the reversed page
    appended to the buffer. *)
Definition after_fetch (es : list json) (it : AuditLogIterator) : AuditLogIterator :=
  let it' := match _limit it with
             | Some n => with_limit (Some (n - Z.of_nat (length es))%Z) it
             | None => it
             end in
  with_buffer (_buffer it' ++ reverse es) it'.

(** The state a successful [_fill] leads to (lemma [fill_ok]). *)
Definition fill_result (σ : state) (w' : world) (es : list json)
    (iu iw ii : option (gmap Snowflake extern)) : state :=
  merge_result integrations with_integrations ii
    (merge_result webhooks with_webhooks iw
       (merge_result users with_users iu
          {| self := after_fetch es (self σ);
             heap := heap σ;
             session := w';
             calls := calls σ ++ [fill_args (self σ)] |})).

(** The [try] block of [__anext__] (lemma [anext_unfold]). *)
Definition take_entry : action AuditLogEntry :=
  except_IndexError (
    it ← get_self;
    popped ← lift (list_pop (_buffer it));
    set_self (with_buffer popped.2);;
    entry ← lift (AuditLogEntry_deserialize popped.1);
    set_self (with_front (Some (Snowflake_str (entry_id entry))));;
    mret entry).

(** The state with its iterator changed by [f]. *)
Definition with_self (f : AuditLogIterator → AuditLogIterator) (σ : state) : state :=
  {| self := f (self σ); heap := heap σ; session := session σ; calls := calls σ |}.

(** The part of the state that paging depends on. *)
Definition paging_view (σ : state)
    : (string * option string * option Z) * option Z * list json
      * option string * world * list request_args :=
  (_kwargs (self σ), _limit (self σ), _buffer (self σ), _front (self σ),
   session σ, calls σ).

(** [fill_args] in terms of the three attributes it reads. *)
Definition request_for (kw : string * option string * option Z)
    (front : option string) (limit : option Z) : request_args :=
  {| arg_guild_id := kw.1.1; arg_user_id := kw.1.2; arg_action_type := kw.2;
     arg_before := front; arg_limit := page_limit limit |}.

(** The cursor after [ents] were yielded, starting from [front]. *)
Definition front_after (ents : list AuditLogEntry) (front : option string)
    : option string :=
  match last ents with
  | Some e => Some (Snowflake_str (entry_id e))
  | None => front
  end.

(** The budget after [n] entries were received. *)
Definition spend (limit : option Z) (n : nat) : option Z :=
  (λ z, z - Z.of_nat n)%Z <$> limit.

(** A page whose entry list is [es], decoding to [ents], and whose side
    lists are falsy or decode. *)
Definition good_page (p : gmap string json) (es : list json)
    (ents : list AuditLogEntry) : Prop :=
  p !! "audit_log_entries" = Some (JList es) ∧
  map_res AuditLogEntry_deserialize es = Ok ents ∧
  (∃ iu, side p "users" User_deserialize iu) ∧
  (∃ iw, side p "webhooks" Webhook_deserialize iw) ∧
  (∃ ii, side p "integrations" PartialGuildIntegration_deserialize ii).

(** The request function answers with the given pages, one per call and
    whatever the arguments, taking its state from [w] to the last one. *)
Inductive serves : world → list (gmap string json) → world → Prop :=
  | serves_nil (w : world) : serves w [] w
  | serves_cons (w w' w'' : world) (p : gmap string json)
      (ps : list (gmap string json)) :
      (∀ args, request args w = (Ok (JObj p), w')) →
      serves w' ps w'' →
      serves w (p :: ps) w''.

(** The budget is not zero before any of the fetches that bring pages of
    the given sizes. *)
Fixpoint budget_allows (limit : option Z) (sizes : list nat) : Prop :=
  match sizes with
  | [] => True
  | n :: rest => limit_nonzero limit = true ∧ budget_allows (spend limit n) rest
  end.

(** The requests made for pages that yield the given lists of entries. *)
Fixpoint requests (kw : string * option string * option Z) (limit : option Z)
    (front : option string) (yields : list (list AuditLogEntry))
    : list request_args :=
  match yields with
  | [] => []
  | ents :: rest =>
      request_for kw front limit
        :: requests kw (spend limit (length ents)) (front_after ents front) rest
  end.

(** Whatever its outcome, the action takes a state to one related by [R]. *)
Definition preserves {A : Type} (R : relation state) (c : action A) : Prop :=
  ∀ σ r σ', c σ = (r, σ') → R σ σ'.

(** Nothing was requested; the cursor did not move. *)
Definition same_calls : relation state := λ σ σ', calls σ' = calls σ.
Definition same_front : relation state :=
  λ σ σ', _front (self σ') = _front (self σ).

(** What follows the request in [_fill] (lemma [fill_unfold]). *)
Definition fill_rest (n : option Z) (payload : json) : action unit :=
  match n with
  | Some n =>
      entries ← lift (getitem payload "audit_log_entries");
      len ← lift (py_len entries);
      set_self (with_limit (Some (n - len)%Z))
  | None => mret ()
  end;;
  entries ← lift (getitem payload "audit_log_entries");
  reversed ← lift (list_reverse entries);
  it ← get_self;
  set_self (with_buffer (_buffer it ++ reversed));;
  users_raw ← lift (get payload "users");
  merge users with_users User_deserialize users_raw;;
  webhooks_raw ← lift (get payload "webhooks");
  merge webhooks with_webhooks Webhook_deserialize webhooks_raw;;
  integrations_raw ← lift (get payload "integrations");
  merge integrations with_integrations PartialGuildIntegration_deserialize integrations_raw.

(** The three side mappings of the iterator, to state one property of all. *)
Inductive side_attr : Type := attr_users | attr_webhooks | attr_integrations.

Definition attr_ref (a : side_attr) (it : AuditLogIterator) : ref :=
  match a with
  | attr_users => users it
  | attr_webhooks => webhooks it
  | attr_integrations => integrations it
  end.

Definition attr_items (a : side_attr) (iu iw ii : option (gmap Snowflake extern))
    : option (gmap Snowflake extern) :=
  match a with
  | attr_users => iu
  | attr_webhooks => iw
  | attr_integrations => ii
  end.

(** *** Vocabulary of the further properties *)

(** The filter arguments of a request. *)
Definition filter_of (args : request_args) : string * option string * option Z :=
  (arg_guild_id args, arg_user_id args, arg_action_type args).

(** The items one of the side mappings holds at present. *)
Definition content (a : side_attr) (σ : state) : gmap Snowflake extern :=
  default ∅ (heap σ !! attr_ref a (self σ)).

(** What the [except] clause of [__anext__] makes of an exception. *)
Definition reported (x : exn) : exn :=
  match x with
  | IndexError => StopAsyncIteration
  | _ => x
  end.

(** The action leaves an attribute (or a combination of attributes) of the
    iterator as it was. *)
Definition keeps {A : Type} (π : AuditLogIterator → A) : relation state :=
  λ σ σ', π (self σ') = π (self σ).

(** No dict object that exists has changed. *)
Definition heap_extends : relation state :=
  λ σ σ', ∀ r d, heap σ !! r = Some d → heap σ' !! r = Some d.

(** Every id a side mapping holds, it still holds. *)
Definition grows (a : side_attr) : relation state :=
  λ σ σ', dom (content a σ) ⊆ dom (content a σ').

(** The budget has not grown, and no budget is still no budget. *)
Definition budget_le (l' l : option Z) : Prop :=
  match l', l with
  | None, None => True
  | Some b, Some a => (b ≤ a)%Z
  | _, _ => False
  end.

Definition budget_shrinks : relation state :=
  λ σ σ', budget_le (_limit (self σ')) (_limit (self σ)).
(** The last part of [_fill]: the side lists are merged, in this order. *)
Definition merges (payload : json) : action unit :=
  users_raw ← lift (get payload "users");
  merge users with_users User_deserialize users_raw;;
  webhooks_raw ← lift (get payload "webhooks");
  merge webhooks with_webhooks Webhook_deserialize webhooks_raw;;
  integrations_raw ← lift (get payload "integrations");
  merge integrations with_integrations PartialGuildIntegration_deserialize integrations_raw.

End audit_logs.

(** ** A reference instance

    A small realisation of the collaborators, and a session that replays a
    fixed list of pages, for the worked examples below. *)

Fixpoint stub_digits (acc : Z) (s : string) : res Z :=
  match s with
  | EmptyString => Ok acc
  | String c rest =>
      let n := Z.of_N (Ascii.N_of_ascii c) in
      if ((48 <=? n) && (n <=? 57))%Z
      then stub_digits (10 * acc + (n - 48)) rest
      else Raise ValueError
  end.

Definition stub_int_of_text (s : string) : res Z :=
  match s with
  | EmptyString => Raise ValueError
  | _ => stub_digits 0 s
  end.

Definition stub_Snowflake_deserialize (value : json) : res Z :=
  match value with
  | JInt z => Ok z
  | JBool b => Ok (Z.b2z b)
  | JStr s => stub_int_of_text s
  | _ => Raise TypeError
  end.

Definition stub_id (x : json) : Z :=
  match x with
  | JObj m =>
      match stub_Snowflake_deserialize (default JNull (m !! "id")) with
      | Ok z => z
      | Raise _ => 0
      end
  | _ => 0
  end.

Definition stub_str (j : json) : string :=
  match j with
  | JStr s => s
  | JInt z => pretty z
  | JBool true => "True"
  | JBool false => "False"
  | JNull => "None"
  | _ => ""
  end.

Definition stub_collaborators : Collaborators := {|
  Snowflake := Z;
  Snowflake_deserialize := stub_Snowflake_deserialize;
  Snowflake_str := pretty;
  extern := json;
  extern_call := λ _ payload, Ok payload;
  extern_id := stub_id;
  int_of_text := stub_int_of_text;
  py_str := stub_str;
  iter_keys := λ m, (map_to_list m).*1;
|}.

Definition empty_page : json := JObj {[ "audit_log_entries" := JList [] ]}.

(** The session answers with the next page of its list, whatever it is
    asked, and with empty pages once the list is used up. *)
Definition stub_session : Session := {|
  world := list json;
  request := λ _ w,
    match w with
    | [] => (Ok empty_page, [])
    | page :: rest => (Ok page, rest)
    end;
|}.

(** Collaborators that check what they decode: an object of another
    module has to be a dict with an ["id"]. *)
Definition strict_call (f : extern_fn) (payload : json) : res json :=
  match payload with
  | JObj m =>
      match m !! "id" with
      | Some _ => Ok payload
      | None => Raise (KeyError "id")
      end
  | _ => Raise TypeError
  end.

Definition strict_collaborators : Collaborators := {|
  Snowflake := Z;
  Snowflake_deserialize := stub_Snowflake_deserialize;
  Snowflake_str := pretty;
  extern := json;
  extern_call := strict_call;
  extern_id := stub_id;
  int_of_text := stub_int_of_text;
  py_str := stub_str;
  iter_keys := λ m, (map_to_list m).*1;
|}.

(** A session that replays a list of outcomes, failures among them. *)
Definition flaky_session : Session := {|
  world := list (res json);
  request := λ _ w,
    match w with
    | [] => (Ok empty_page, [])
    | outcome :: rest => (outcome, rest)
    end;
|}.

Section reference_data.
#[local] Existing Instances stub_collaborators stub_session.

(** Payloads of the examples: entry [i], made by user 7 with action type
    1, and pages of such entries, with or without users. *)
Definition stub_entry_map (i : Z) : gmap string json :=
  <["id" := JInt i]> (<["user_id" := JInt 7]> {[ "action_type" := JInt 1 ]}).

Definition stub_entry (i : Z) : json := JObj (stub_entry_map i).

Definition stub_page_map (ids : list Z) : gmap string json :=
  {[ "audit_log_entries" := JList (stub_entry <$> ids) ]}.

Definition stub_page (ids : list Z) : json := JObj (stub_page_map ids).

Definition stub_user (i : Z) : json := JObj {[ "id" := JInt i ]}.

Definition stub_users_page_map (ids uids : list Z) : gmap string json :=
  <["users" := JList (stub_user <$> uids)]> (stub_page_map ids).

(** What [stub_entry i] decodes to. *)
Definition stub_decoded (i : Z) : AuditLogEntry :=
  {| entry_id := i;
     entry_target_id := VNone;
     entry_changes := [];
     entry_user_id := 7%Z;
     entry_action_type := KnownType AuditLogEventType.GUILD_UPDATE;
     entry_options := None;
     entry_reason := JNull |}.

(** Identifiers [hi], [hi - 1], ..., [hi - n + 1]: a page as the endpoint
    returns it, newest entry first. *)
Definition descending (hi : Z) (n : nat) : list Z :=
  (λ k : nat, hi - Z.of_nat k)%Z <$> seq 0 n.

Definition stub_iterator (pages : list json) (limit : option Z) : state :=
  AuditLogIterator_init "guild" pages None None None limit.

(** The iterator after a first fetch that brought user 10. *)
Definition stub_after_first_fetch : state :=
  (_fill (stub_iterator [JObj (stub_users_page_map [2; 1] [10]);
                         JObj (stub_users_page_map [0] [11])]%Z None)).2.

End reference_data.

(** ** Properties *)

Section properties.
Context `{Collaborators} `{Session}.
#[local] Existing Instances action_ret action_bind.

Lemma bind_Ok {A B : Type} (r : res A) (f : A → res B) (b : B) :
  (r ≫= f) = Ok b → ∃ a, r = Ok a ∧ f a = Ok b.
Proof. destruct r as [a|e]; simpl; [eauto | discriminate]. Qed.

Lemma fmap_Ok {A B : Type} (r : res A) (f : A → B) (b : B) :
  f <$> r = Ok b → ∃ a, r = Ok a ∧ b = f a.
Proof. destruct r as [a|e]; simpl; [intros [= <-]; eauto | discriminate]. Qed.

Ltac bind_inv H :=
  repeat match type of H with
  | (_ ≫= _) = Ok _ =>
      let a := fresh "a" in let Ha := fresh "Ha" in
      apply bind_Ok in H as (a & Ha & H)
  end.

(** *** Entry deserialisation: the target id *)

(** C10, as the code has it.  When an entry decodes, a ["target_id"] that
    is present with a falsy value is kept as that raw value and not parsed
    as a Snowflake; an absent key gives [None]; and so does a present null,
    which is its own raw value, but no other present value. *)
Theorem target_id_falsy_kept (m : gmap string json) (e : AuditLogEntry) :
  AuditLogEntry_deserialize (JObj m) = Ok e →
  (∀ v, m !! "target_id" = Some v → truthy v = false →
        entry_target_id e = VJson v) ∧
  (m !! "target_id" = None → entry_target_id e = VNone) ∧
  (∀ v, m !! "target_id" = Some v → v ≠ JNull → entry_target_id e ≠ VNone).
Proof.
  unfold AuditLogEntry_deserialize. intros Hd.
  apply bind_Ok in Hd as (raw_type & _ & Hd).
  apply bind_Ok in Hd as (target_raw & Ht & Hd).
  apply bind_Ok in Hd as (target_id & Hid & Hd).
  bind_inv Hd. injection Hd as <-. simpl.
  simpl in Ht. injection Ht as <-.
  repeat split.
  - intros v Hv Hf. rewrite Hv in Hid. simpl in Hid. rewrite Hf in Hid.
    by injection Hid as <-.
  - intros Hv. rewrite Hv in Hid. simpl in Hid. by injection Hid as <-.
  - intros v Hv Hn. rewrite Hv in Hid. simpl in Hid.
    destruct (truthy v).
    + apply fmap_Ok in Hid as (s & _ & ->). discriminate.
    + injection Hid as <-. unfold VNone. intros [= ->]. by apply Hn.
Qed.

(** *** Change deserialisation *)

Lemma change_deserialize_unfold (m : gmap string json) (raw : json) :
  m !! "key" = Some raw →
  AuditLogChange_deserialize (JObj m) =
    (let key := try_cast raw (λ v, KnownKey <$> AuditLogChangeKey.cast v) (RawKey raw) in
     let new_value := default JNull (m !! "new_value") in
     let old_value := default JNull (m !! "old_value") in
     value_converter ← AUDIT_LOG_ENTRY_CONVERTERS_get key;
     match value_converter with
     | Some conv =>
         new_value' ← (if is_None new_value then Ok VNone else conv new_value);
         old_value' ← (if is_None old_value then Ok VNone else conv old_value);
         Ok {| change_key_of := key;
               change_new_value := new_value';
               change_old_value := old_value' |}
     | None =>
         Ok {| change_key_of := key;
               change_new_value := VJson new_value;
               change_old_value := VJson old_value |}
     end).
Proof. intros Hk. unfold AuditLogChange_deserialize. simpl. by rewrite Hk. Qed.

Lemma is_None_true (j : json) : is_None j = true ↔ j = JNull.
Proof. destruct j; simpl; split; congruence. Qed.

Lemma is_None_false (j : json) : is_None j = false ↔ j ≠ JNull.
Proof. destruct j; simpl; split; congruence. Qed.

(** C6.  For a change payload with any key: a new (old) value that is
    absent or null comes out as [None]; with both values null the change
    decodes without the converter being run at all; and under a key with a
    registered converter each non-null value is the converter's result on
    that value alone. *)
Theorem change_null_stays_none (m : gmap string json) (raw : json) :
  m !! "key" = Some raw →
  let key := try_cast raw (λ v, KnownKey <$> AuditLogChangeKey.cast v) (RawKey raw) in
  let new_raw := default JNull (m !! "new_value") in
  let old_raw := default JNull (m !! "old_value") in
  (∀ c, AuditLogChange_deserialize (JObj m) = Ok c →
        change_key_of c = key ∧
        (new_raw = JNull → change_new_value c = VNone) ∧
        (old_raw = JNull → change_old_value c = VNone)) ∧
  (∀ conv, AUDIT_LOG_ENTRY_CONVERTERS_get key = Ok conv →
        new_raw = JNull → old_raw = JNull →
        AuditLogChange_deserialize (JObj m) =
          Ok {| change_key_of := key;
                change_new_value := VNone; change_old_value := VNone |}) ∧
  (∀ conv c, AUDIT_LOG_ENTRY_CONVERTERS_get key = Ok (Some conv) →
        AuditLogChange_deserialize (JObj m) = Ok c →
        (new_raw ≠ JNull → conv new_raw = Ok (change_new_value c)) ∧
        (old_raw ≠ JNull → conv old_raw = Ok (change_old_value c))) ∧
  (∀ conv a b, AUDIT_LOG_ENTRY_CONVERTERS_get key = Ok (Some conv) →
        (if is_None new_raw then a = VNone else conv new_raw = Ok a) →
        (if is_None old_raw then b = VNone else conv old_raw = Ok b) →
        AuditLogChange_deserialize (JObj m) =
          Ok {| change_key_of := key;
                change_new_value := a; change_old_value := b |}).
Proof.
  intros Hk key new_raw old_raw.
  rewrite (change_deserialize_unfold m raw Hk).
  fold key new_raw old_raw. cbv zeta.
  split; [|split; [|split]].
  - intros c Hc.
    apply bind_Ok in Hc as ([conv|] & Hget & Hc).
    + apply bind_Ok in Hc as (a & Ha & Hc).
      apply bind_Ok in Hc as (b & Hb & Hc).
      injection Hc as <-. simpl. repeat split.
      * intros Hn. rewrite Hn in Ha. simpl in Ha. by injection Ha as <-.
      * intros Hn. rewrite Hn in Hb. simpl in Hb. by injection Hb as <-.
    + injection Hc as <-. simpl. repeat split; by intros ->.
  - intros conv Hget Hn Ho. rewrite Hget. simpl. rewrite Hn, Ho.
    by destruct conv.
  - intros conv c Hget Hc. rewrite Hget in Hc. simpl in Hc.
    apply bind_Ok in Hc as (a & Ha & Hc).
    apply bind_Ok in Hc as (b & Hb & Hc).
    injection Hc as <-. simpl. split; intros Hn.
    + apply is_None_false in Hn. by rewrite Hn in Ha.
    + apply is_None_false in Hn. by rewrite Hn in Hb.
  - intros conv a b Hget Ha Hb. rewrite Hget. simpl.
    destruct (is_None new_raw); [subst a | rewrite Ha]; simpl;
      (destruct (is_None old_raw); [subst b | rewrite Hb]); done.
Qed.

Lemma timedelta_seconds_in_range (n : Z) :
  (0 < n)%Z → (n `div` 86400 ≤ 999999999)%Z →
  timedelta_seconds n = Ok (VTimedelta n).
Proof.
  intros Hpos Hle. unfold timedelta_seconds.
  assert (0 ≤ n `div` 86400)%Z by (apply Z.div_pos; lia).
  replace (-999999999 <=? n `div` 86400)%Z with true by (symmetry; apply Z.leb_le; lia).
  replace (n `div` 86400 <=? 999999999)%Z with true by (symmetry; apply Z.leb_le; lia).
  done.
Qed.

(** C7.  [max_uses] turns a raw zero into float infinity and a positive
    count into that integer; [max_age] turns a raw zero into [None] and a
    positive number [n] into [timedelta(seconds=n)], the duration of [n]
    seconds whenever a timedelta can hold it.  The two zero results
    differ. *)
Theorem max_uses_max_age_zero_conventions :
  AUDIT_LOG_ENTRY_CONVERTERS AuditLogChangeKey.MAX_USES = Some conv_max_uses ∧
  AUDIT_LOG_ENTRY_CONVERTERS AuditLogChangeKey.MAX_AGE = Some conv_max_age ∧
  conv_max_uses (JInt 0) = Ok VInf ∧
  (∀ n, (0 < n)%Z → conv_max_uses (JInt n) = Ok (VJson (JInt n))) ∧
  conv_max_age (JInt 0) = Ok VNone ∧
  (∀ n, (0 < n)%Z → conv_max_age (JInt n) = timedelta_seconds n) ∧
  (∀ n, (0 < n)%Z → (n `div` 86400 ≤ 999999999)%Z →
        conv_max_age (JInt n) = Ok (VTimedelta n)) ∧
  VInf ≠ VNone ∧
  (∀ m, m !! "key" = Some (JStr "max_uses") →
        m !! "new_value" = Some (JInt 0) → m !! "old_value" = None →
        AuditLogChange_deserialize (JObj m) =
          Ok {| change_key_of := KnownKey AuditLogChangeKey.MAX_USES;
                change_new_value := VInf; change_old_value := VNone |}) ∧
  (∀ m, m !! "key" = Some (JStr "max_age") →
        m !! "new_value" = Some (JInt 0) → m !! "old_value" = None →
        AuditLogChange_deserialize (JObj m) =
          Ok {| change_key_of := KnownKey AuditLogChangeKey.MAX_AGE;
                change_new_value := VNone; change_old_value := VNone |}).
Proof.
  repeat split; try done.
  - intros n Hn. unfold conv_max_uses. simpl.
    by replace (0 <? n)%Z with true by (symmetry; apply Z.ltb_lt; lia).
  - intros n Hn. unfold conv_max_age. simpl.
    by replace (0 <? n)%Z with true by (symmetry; apply Z.ltb_lt; lia).
  - intros n Hn Hr. unfold conv_max_age. simpl.
    replace (0 <? n)%Z with true by (symmetry; apply Z.ltb_lt; lia).
    by apply timedelta_seconds_in_range.
  - intros m Hk Hn Ho. rewrite (change_deserialize_unfold m _ Hk).
    rewrite Hn, Ho. reflexivity.
  - intros m Hk Hn Ho. rewrite (change_deserialize_unfold m _ Hk).
    rewrite Hn, Ho. reflexivity.
Qed.

(** *** The registry of entry-info classes *)

Lemma register_lookup (cls : entry_info_class) (ts : list AuditLogEventType.t)
    (mapping : gmap Z entry_info_class) (z : Z) :
  foldl (λ mapping t, <[AuditLogEventType.value t := cls]> mapping) mapping ts !! z =
    if bool_decide (z ∈ AuditLogEventType.value <$> ts) then Some cls else mapping !! z.
Proof.
  revert mapping. induction ts as [|t ts IH]; intros mapping; simpl.
  - done.
  - rewrite IH. destruct (decide (z ∈ AuditLogEventType.value <$> ts)) as [Hin|Hin].
    + rewrite !bool_decide_eq_true_2; [done | by apply elem_of_cons; right | done].
    + rewrite (bool_decide_eq_false_2 _ Hin).
      destruct (decide (z = AuditLogEventType.value t)) as [->|Hne].
      * rewrite lookup_insert_eq.
        by rewrite bool_decide_eq_true_2 by (apply elem_of_cons; by left).
      * rewrite lookup_insert_ne by done.
        rewrite bool_decide_eq_false_2; [done |].
        intros [?|?]%elem_of_cons; done.
Qed.

Lemma module_types_lookup (z : Z) :
  default ∅ module_types !! z =
    if bool_decide (z ∈ [13; 14; 15]%Z) then Some ChannelOverwriteEntryInfo
    else if bool_decide (z ∈ [74; 75]%Z) then Some MessagePinEntryInfo
    else if bool_decide (z = 21%Z) then Some MemberPruneEntryInfo
    else if bool_decide (z = 73%Z) then Some MessageBulkDeleteEntryInfo
    else if bool_decide (z = 72%Z) then Some MessageDeleteEntryInfo
    else if bool_decide (z = 27%Z) then Some MemberDisconnectEntryInfo
    else if bool_decide (z = 26%Z) then Some MemberMoveEntryInfo
    else None.
Proof.
  unfold module_types, register_audit_log_entry_info.
  cbn [from_option id foldl AuditLogEventType.value].
  repeat (rewrite lookup_insert; case_decide; [ subst z; reflexivity | ]).
  rewrite lookup_empty.
  repeat (case_bool_decide as Hd;
          [ exfalso; revert Hd; rewrite ?elem_of_cons, ?elem_of_nil; naive_solver
          | clear Hd ]).
  reflexivity.
Qed.

(** What a successful [AuditLogEntry.deserialize] says about its payload. *)
Lemma entry_deserialize_inv (m : gmap string json) (e : AuditLogEntry) :
  AuditLogEntry_deserialize (JObj m) = Ok e →
  ∃ raw_type user_raw id_raw,
    m !! "action_type" = Some raw_type ∧
    entry_action_type e =
      try_cast raw_type (λ v, KnownType <$> AuditLogEventType.cast v) (RawType raw_type) ∧
    (if is_None (default JNull (m !! "options")) then Ok None
     else option_converter ← get_entry_info_entity module_types (entry_action_type e);
          Some <$> entry_info_deserialize option_converter (default JNull (m !! "options")))
      = Ok (entry_options e) ∧
    (change_payloads ← py_iter (default (JList []) (m !! "changes"));
     map_res AuditLogChange_deserialize change_payloads) = Ok (entry_changes e) ∧
    m !! "user_id" = Some user_raw ∧
    Snowflake_deserialize user_raw = Ok (entry_user_id e) ∧
    m !! "id" = Some id_raw ∧
    Snowflake_deserialize id_raw = Ok (entry_id e) ∧
    entry_reason e = default JNull (m !! "reason").
Proof.
  unfold AuditLogEntry_deserialize. intros Hd.
  apply bind_Ok in Hd as (raw_type & Hty & Hd).
  apply bind_Ok in Hd as (target_raw & _ & Hd).
  apply bind_Ok in Hd as (target_id & _ & Hd).
  apply bind_Ok in Hd as (options_raw & Hor & Hd).
  apply bind_Ok in Hd as (options & Hopt & Hd).
  apply bind_Ok in Hd as (changes_raw & Hcr & Hd).
  apply bind_Ok in Hd as (change_payloads & Hcp & Hd).
  apply bind_Ok in Hd as (changes & Hch & Hd).
  apply bind_Ok in Hd as (user_raw & Hur & Hd).
  apply bind_Ok in Hd as (user_id & Hu & Hd).
  apply bind_Ok in Hd as (id_raw & Hir & Hd).
  apply bind_Ok in Hd as (i & Hi & Hd).
  apply bind_Ok in Hd as (reason & Hr & Hd).
  injection Hd as <-. simpl in *.
  injection Hor as <-. injection Hcr as <-. injection Hr as <-.
  destruct (m !! "action_type") as [rt|] eqn:Eat; [|discriminate].
  destruct (m !! "user_id") as [ur|] eqn:Eur; [|discriminate].
  destruct (m !! "id") as [ir|] eqn:Eir; [|discriminate].
  injection Hty as <-. injection Hur as <-. injection Hir as <-.
  exists rt, ur, ir. repeat split; try done.
  by rewrite Hcp.
Qed.


(** *** Entry deserialisation: required fields and unrecognised values *)

Lemma unrecognised_type_fallback (raw : json) :
  AuditLogEventType.cast raw = Raise ValueError → hashable raw = true →
  get_entry_info_entity module_types (RawType raw) = Ok UnrecognisedAuditLogEntryInfo.
Proof.
  intros Hcast Hhash. unfold get_entry_info_entity, types_get.
  assert (Hz : ∀ z, AuditLogEventType.of_value z = None →
                    default ∅ module_types !! z = None).
  { intros z Hof. rewrite module_types_lookup.
    repeat (case_bool_decide as Hd;
            [ exfalso; revert Hd Hof;
              rewrite ?elem_of_cons, ?elem_of_nil;
              intros Hd; repeat (destruct Hd as [->|Hd]; [discriminate|]);
              first [ done | subst z; discriminate ]
            | clear Hd ]).
    reflexivity. }
  destruct raw as [|b|z|s|l|o]; simpl in *; try done.
  - destruct (AuditLogEventType.of_value (Z.b2z b)) eqn:E; [done|].
    by rewrite (Hz _ E).
  - destruct (AuditLogEventType.of_value z) eqn:E; [done|].
    by rewrite (Hz _ E).
Qed.

Lemma unknown_key_change (cm : gmap string json) :
  unknown_key cm → AuditLogChange_deserialize (JObj cm) = Ok (raw_change cm).
Proof.
  intros (s & Hk & Hcast). rewrite (change_deserialize_unfold cm _ Hk).
  unfold try_cast, raw_change. rewrite Hcast, Hk. reflexivity.
Qed.

Lemma unknown_key_changes (cms : list (gmap string json)) :
  Forall unknown_key cms →
  map_res AuditLogChange_deserialize (JObj <$> cms) = Ok (raw_change <$> cms).
Proof.
  induction 1 as [|cm cms Hcm _ IH]; [done|].
  cbn [fmap list_fmap map_res]. rewrite (unknown_key_change cm Hcm).
  cbn [mbind res_bind]. fold (@fmap list _ _ _ JObj cms). rewrite IH.
  reflexivity.
Qed.


(** *** The iterator: one fetch *)

Lemma merge_ok (field : AuditLogIterator → ref)
    (set_field : ref → AuditLogIterator → AuditLogIterator)
    (p : gmap string json) (k : string) (f : extern_fn)
    (items : option (gmap Snowflake extern)) (σ : state) :
  side p k f items →
  merge field set_field f (default JNull (p !! k)) σ
    = (Ok (), merge_result field set_field items σ).
Proof.
  unfold side, merge. destruct items as [d|].
  - intros [-> Hd]. unfold mbind, action_bind, get_self, copy_dict, set_self,
      lift, dict_update. cbn [self heap session calls]. rewrite Hd.
    unfold merge_result, alloc_field. do 2 f_equal.
    rewrite (list_lookup_middle (heap σ) [] _ (length (heap σ))) by done.
    cbn [from_option id].
    rewrite insert_app_r_alt by lia. by rewrite Nat.sub_diag.
  - intros ->. reflexivity.
Qed.

Lemma fill_ok (σ : state) (p : gmap string json) (es : list json) (w' : world)
    (iu iw ii : option (gmap Snowflake extern)) :
  request (fill_args (self σ)) (session σ) = (Ok (JObj p), w') →
  p !! "audit_log_entries" = Some (JList es) →
  side p "users" User_deserialize iu →
  side p "webhooks" Webhook_deserialize iw →
  side p "integrations" PartialGuildIntegration_deserialize ii →
  _fill σ = (Ok (), fill_result σ w' es iu iw ii).
Proof.
  intros Hreq Hes Hu Hw Hi.
  unfold _fill, fill_result.
  unfold mbind at 1, action_bind at 1. cbn [get_self].
  unfold mbind at 1, action_bind at 1. unfold await_request at 1.
  cbn [self session heap calls]. rewrite Hreq.
  cbn [getitem get]. rewrite Hes.
  unfold after_fetch.
  destruct (_limit (self σ)) as [n|] eqn:Hlim;
    unfold mbind, action_bind, lift, set_self, get_self, mret, action_ret;
    cbn [py_len list_reverse self heap session calls];
    rewrite (merge_ok _ _ p "users" _ iu _ Hu);
    rewrite (merge_ok _ _ p "webhooks" _ iw _ Hw);
    rewrite (merge_ok _ _ p "integrations" _ ii _ Hi);
    reflexivity.
Qed.

Lemma fill_result_core (σ : state) (w' : world) (es : list json)
    (iu iw ii : option (gmap Snowflake extern)) :
  let σ' := fill_result σ w' es iu iw ii in
  _kwargs (self σ') = _kwargs (self σ) ∧
  _limit (self σ') = (λ n, n - Z.of_nat (length es))%Z <$> _limit (self σ) ∧
  _buffer (self σ') = _buffer (self σ) ++ reverse es ∧
  _front (self σ') = _front (self σ) ∧
  session σ' = w' ∧
  calls σ' = calls σ ++ [fill_args (self σ)].
Proof.
  unfold fill_result, after_fetch.
  destruct iu, iw, ii; destruct (_limit (self σ)) eqn:E; simpl;
    rewrite ?E; done.
Qed.

(** *** The iterator: one step *)

Lemma anext_unfold (σ : state) :
  __anext__ σ =
    ((if bool_decide (_buffer (self σ) = []) && limit_nonzero (_limit (self σ))
      then _fill else mret ()) ≫= λ _, take_entry) σ.
Proof. reflexivity. Qed.

Lemma list_pop_snoc {A : Type} (l : list A) (x : A) :
  list_pop (l ++ [x]) = Ok (x, l).
Proof.
  unfold list_pop. rewrite reverse_app. simpl.
  by rewrite reverse_involutive.
Qed.

Lemma take_entry_snoc (σ : state) (b : list json) (pl : json) (e : AuditLogEntry) :
  _buffer (self σ) = b ++ [pl] →
  AuditLogEntry_deserialize pl = Ok e →
  take_entry σ =
    (Ok e, with_self (λ it, with_front (Some (Snowflake_str (entry_id e)))
                              (with_buffer b it)) σ).
Proof.
  intros Hb He. unfold take_entry, except_IndexError.
  unfold mbind, action_bind, get_self, lift, set_self, mret, action_ret.
  rewrite Hb, list_pop_snoc. cbn [fst snd self heap session calls].
  rewrite He. reflexivity.
Qed.

Lemma take_entry_nil (σ : state) :
  _buffer (self σ) = [] → take_entry σ = (Raise StopAsyncIteration, σ).
Proof.
  intros Hb. unfold take_entry, except_IndexError.
  unfold mbind, action_bind, get_self, lift. by rewrite Hb.
Qed.

(** With items buffered, [__anext__] yields the last of them and requests
    nothing. *)
Lemma anext_buffered (σ : state) (b : list json) (pl : json) (e : AuditLogEntry) :
  _buffer (self σ) = b ++ [pl] →
  AuditLogEntry_deserialize pl = Ok e →
  __anext__ σ =
    (Ok e, with_self (λ it, with_front (Some (Snowflake_str (entry_id e)))
                              (with_buffer b it)) σ).
Proof.
  intros Hb He. rewrite anext_unfold.
  rewrite bool_decide_eq_false_2 by (rewrite Hb; by destruct b).
  cbn [andb]. unfold mbind at 1, action_bind at 1, mret at 1, action_ret at 1.
  exact (take_entry_snoc σ b pl e Hb He).
Qed.

(** With nothing buffered and a budget of exactly zero, [__anext__] signals
    exhaustion, requests nothing and leaves the state as it was. *)
Lemma anext_budget_spent (σ : state) :
  _buffer (self σ) = [] → _limit (self σ) = Some 0%Z →
  __anext__ σ = (Raise StopAsyncIteration, σ).
Proof.
  intros Hb Hl. rewrite anext_unfold. rewrite Hl. cbn [limit_nonzero].
  rewrite andb_false_r.
  unfold mbind at 1, action_bind at 1, mret at 1, action_ret at 1.
  by apply take_entry_nil.
Qed.

(** With nothing buffered and a budget that is not zero, [__anext__]
    starts with [_fill]. *)
Lemma anext_fetches (σ : state) :
  _buffer (self σ) = [] → limit_nonzero (_limit (self σ)) = true →
  __anext__ σ = (_fill ≫= λ _, take_entry) σ.
Proof.
  intros Hb Hl. rewrite anext_unfold.
  by rewrite bool_decide_eq_true_2, Hl by done.
Qed.

(** *** The iterator: runs *)

Lemma map_res_length {A B : Type} (f : A → res B) (xs : list A) (ys : list B) :
  map_res f xs = Ok ys → length ys = length xs.
Proof.
  revert ys. induction xs as [|x xs IH]; intros ys; simpl.
  - by intros [= <-].
  - intros Hm. apply bind_Ok in Hm as (y & _ & Hm).
    apply bind_Ok in Hm as (ys' & Hys & Hm). injection Hm as <-.
    simpl. by rewrite (IH ys' Hys).
Qed.

Lemma front_after_cons (e : AuditLogEntry) (ents : list AuditLogEntry)
    (front : option string) :
  front_after (e :: ents) front =
    front_after ents (Some (Snowflake_str (entry_id e))).
Proof. unfold front_after. rewrite last_cons. by destruct (last ents). Qed.

Lemma front_after_app (a b : list AuditLogEntry) (front : option string) :
  front_after (a ++ b) front = front_after b (front_after a front).
Proof.
  revert front. induction a as [|e a IH]; intros front; [done|].
  simpl. by rewrite !front_after_cons, IH.
Qed.

Lemma spend_spend (limit : option Z) (a b : nat) :
  spend (spend limit a) b = spend limit (a + b).
Proof. destruct limit as [z|]; simpl; [f_equal; lia | done]. Qed.

Lemma spend_0 (limit : option Z) : spend limit 0 = limit.
Proof. destruct limit as [z|]; simpl; [f_equal; lia | done]. Qed.

Lemma async_for_app (n k : nat) (σ σ' : state) (es : list AuditLogEntry) :
  async_for n σ = (es, None, σ') →
  async_for (n + k) σ =
    (let '(es', stop, σ'') := async_for k σ' in (es ++ es', stop, σ'')).
Proof.
  revert σ es. induction n as [|n IH]; intros σ es; simpl.
  - intros [= <- <-]. by destruct (async_for k σ) as [[? ?] ?].
  - destruct (__anext__ σ) as [[e|x] σ1]; [|discriminate].
    destruct (async_for n σ1) as [[es1 stop1] σ2] eqn:E.
    intros [= <- -> <-]. rewrite (IH σ1 es1 E).
    by destruct (async_for k σ2) as [[? ?] ?].
Qed.

Lemma async_for_stopped (n k : nat) (σ σ' : state) (es : list AuditLogEntry)
    (x : exn) :
  async_for n σ = (es, Some x, σ') → n ≤ k →
  async_for k σ = (es, Some x, σ').
Proof.
  revert k σ es. induction n as [|n IH]; intros k σ es; simpl; [discriminate|].
  intros Hrun Hk. destruct k as [|k]; [lia|]. simpl.
  destruct (__anext__ σ) as [[e|y] σ1]; [|done].
  destruct (async_for n σ1) as [[es1 stop1] σ2] eqn:E.
  injection Hrun as <- -> <-. by rewrite (IH k σ1 es1 E) by lia.
Qed.

(** Draining a buffer that holds a reversed page: the entries come out in
    the order of the page, and nothing is requested. *)
Lemma drain_buffer (es : list json) :
  ∀ (ents : list AuditLogEntry) (σ : state) kw l f w cs,
    paging_view σ = (kw, l, reverse es, f, w, cs) →
    map_res AuditLogEntry_deserialize es = Ok ents →
    ∃ σ', async_for (length es) σ = (ents, None, σ') ∧
          paging_view σ' = (kw, l, [], front_after ents f, w, cs).
Proof.
  induction es as [|pl es IH]; intros ents σ kw l f w cs Hv Hm.
  - injection Hm as <-. exists σ. by split.
  - simpl in Hm. apply bind_Ok in Hm as (e & He & Hm).
    apply bind_Ok in Hm as (ents' & Hents & Hm). injection Hm as <-.
    injection Hv as Hkw Hl Hb Hf Hw Hcs. rewrite reverse_cons in Hb.
    cbn [length async_for]. rewrite (anext_buffered σ _ pl e Hb He).
    destruct (IH ents'
                (with_self (λ it, with_front (Some (Snowflake_str (entry_id e)))
                                    (with_buffer (reverse es) it)) σ)
                kw l (Some (Snowflake_str (entry_id e))) w cs)
      as (σ' & Hrun & Hv'); [by rewrite <- Hkw, <- Hl, <- Hw, <- Hcs | done |].
    exists σ'. rewrite Hrun. split; [done|]. by rewrite front_after_cons.
Qed.

(** One round: a fetch that brings a non-empty page, then the page is
    yielded entry by entry. *)
Lemma paging_round (σ : state) kw l f w cs (p : gmap string json) (w' : world)
    (es : list json) (ents : list AuditLogEntry) :
  paging_view σ = (kw, l, [], f, w, cs) →
  limit_nonzero l = true →
  request (request_for kw f l) w = (Ok (JObj p), w') →
  good_page p es ents → es ≠ [] →
  ∃ σ', async_for (length es) σ = (ents, None, σ') ∧
        paging_view σ' = (kw, spend l (length es), [], front_after ents f, w',
                          cs ++ [request_for kw f l]).
Proof.
  intros Hv Hl Hreq (Hes & Hm & [iu Hu] & [iw Hw] & [ii Hi]) Hne.
  injection Hv as Hkw Hlim Hb Hf Hw0 Hcs.
  destruct es as [|pl es]; [done|].
  simpl in Hm. apply bind_Ok in Hm as (e & He & Hm).
  apply bind_Ok in Hm as (ents' & Hents & Hm). injection Hm as <-.
  cbn [length async_for].
  rewrite (anext_fetches σ Hb) by (by rewrite Hlim).
  assert (Hargs : fill_args (self σ) = request_for kw f l)
    by (unfold fill_args, request_for; by rewrite Hkw, Hlim, Hf).
  unfold mbind at 1, action_bind at 1.
  rewrite (fill_ok σ p (pl :: es) w' iu iw ii)
    by (rewrite ?Hargs, ?Hw0; done).
  destruct (fill_result_core σ w' (pl :: es) iu iw ii)
    as (Rkw & Rl & Rb & Rf & Rw & Rcs).
  rewrite Hb, reverse_cons in Rb. cbn [app] in Rb.
  rewrite (take_entry_snoc _ _ pl e Rb He).
  destruct (drain_buffer es ents'
              (with_self (λ it, with_front (Some (Snowflake_str (entry_id e)))
                                  (with_buffer (reverse es) it))
                 (fill_result σ w' (pl :: es) iu iw ii))
              kw (spend l (S (length es))) (Some (Snowflake_str (entry_id e)))
              w' (cs ++ [request_for kw f l]))
    as (σ' & Hrun & Hv'); [|done|].
  { unfold paging_view. cbn [with_self self session calls with_front with_buffer
                              _kwargs _limit _buffer _front].
    rewrite Rkw, Rl, Rw, Rcs, Hkw, Hlim, Hcs, Hargs. reflexivity. }
  exists σ'. rewrite Hrun. split; [done|]. by rewrite front_after_cons.
Qed.

(** A fetch that brings an empty page: exhaustion is signalled, and all
    that changes is the request function's state and the log of calls. *)
Lemma paging_empty_page (σ : state) kw l f w cs (p : gmap string json) (w' : world) :
  paging_view σ = (kw, l, [], f, w, cs) →
  limit_nonzero l = true →
  request (request_for kw f l) w = (Ok (JObj p), w') →
  good_page p [] [] →
  ∃ σ', __anext__ σ = (Raise StopAsyncIteration, σ') ∧
        paging_view σ' = (kw, l, [], f, w', cs ++ [request_for kw f l]).
Proof.
  intros Hv Hl Hreq (Hes & _ & [iu Hu] & [iw Hw] & [ii Hi]).
  injection Hv as Hkw Hlim Hb Hf Hw0 Hcs.
  rewrite (anext_fetches σ Hb) by (by rewrite Hlim).
  assert (Hargs : fill_args (self σ) = request_for kw f l)
    by (unfold fill_args, request_for; by rewrite Hkw, Hlim, Hf).
  unfold mbind at 1, action_bind at 1.
  rewrite (fill_ok σ p [] w' iu iw ii) by (rewrite ?Hargs, ?Hw0; done).
  destruct (fill_result_core σ w' [] iu iw ii)
    as (Rkw & Rl & Rb & Rf & Rw & Rcs).
  rewrite Hb in Rb. cbn [app reverse] in Rb.
  rewrite (take_entry_nil _ Rb). eexists. split; [reflexivity|].
  unfold paging_view. rewrite Rkw, Rl, Rb, Rf, Rw, Rcs, Hkw, Hlim, Hf, Hcs, Hargs.
  change ((λ n : Z, (n - Z.of_nat (length (@nil json)))%Z) <$> l) with (spend l 0).
  by rewrite spend_0.
Qed.

(** Any number of rounds: the pages are yielded one after the other, each
    in the order in which it was returned. *)
Lemma paging_run (pages : list (gmap string json * list json * list AuditLogEntry)) :
  ∀ (σ : state) kw l f w cs w_end,
    paging_view σ = (kw, l, [], f, w, cs) →
    serves w (pages.*1.*1) w_end →
    Forall (λ pg, good_page pg.1.1 pg.1.2 pg.2 ∧ pg.1.2 ≠ []) pages →
    budget_allows l (length <$> pages.*2) →
    ∃ σ', async_for (length (concat pages.*2)) σ = (concat pages.*2, None, σ') ∧
          paging_view σ' =
            (kw, spend l (length (concat pages.*2)), [],
             front_after (concat pages.*2) f, w_end,
             cs ++ requests kw l f pages.*2).
Proof.
  induction pages as [|[[p es] ents] pages IH];
    intros σ kw l f w cs w_end Hv Hs Hgood Hbudget.
  - inversion Hs; subst. exists σ. cbn. rewrite spend_0, app_nil_r. by split.
  - cbn [fmap list_fmap fst snd concat] in *.
    inversion Hs as [|? w' ? ? ? Hreq Hs']; subst.
    apply Forall_cons in Hgood as [[Hp Hne] Hgood]. cbn [fst snd] in Hp, Hne.
    destruct Hbudget as [Hl Hbudget].
    assert (Hlen : length ents = length es)
      by (destruct Hp as (_ & Hm & _); by apply map_res_length in Hm).
    destruct (paging_round σ kw l f w cs p w' es ents Hv Hl (Hreq _) Hp Hne)
      as (σ1 & Hrun1 & Hv1).
    rewrite Hlen in Hbudget.
    destruct (IH σ1 kw (spend l (length es)) (front_after ents f) w'
                (cs ++ [request_for kw f l]) w_end Hv1 Hs' Hgood Hbudget)
      as (σ' & Hrun & Hv').
    exists σ'. rewrite length_app, Hlen.
    rewrite (async_for_app _ _ _ _ _ Hrun1), Hrun. split; [done|].
    rewrite Hv'. cbn [requests]. rewrite spend_spend, front_after_app, Hlen.
    by rewrite <- app_assoc.
Qed.

Lemma budget_allows_unbounded (sizes : list nat) : budget_allows None sizes.
Proof. induction sizes; simpl; auto. Qed.

(** A budget of [n] is not used up before the last of a run of non-empty
    pages that hold [n] entries in all. *)
Lemma budget_allows_exact (sizes : list nat) :
  ∀ n : Z, Forall (λ s, s ≠ 0) sizes → Z.of_nat (sum_list sizes) = n →
           budget_allows (Some n) sizes.
Proof.
  induction sizes as [|s sizes IH]; intros n Hpos Hsum; [done|].
  apply Forall_cons in Hpos as [Hs Hpos]. simpl in Hsum. split.
  - simpl. apply negb_true_iff, Z.eqb_neq. lia.
  - apply IH; [done | lia].
Qed.

(** *** What the steps of the iterator leave alone *)

#[local] Instance same_calls_refl : Reflexive same_calls.
Proof. by intros σ. Qed.
#[local] Instance same_calls_trans : Transitive same_calls.
Proof. unfold same_calls. intros σ1 σ2 σ3 H12 H23. congruence. Qed.
#[local] Instance same_front_refl : Reflexive same_front.
Proof. by intros σ. Qed.
#[local] Instance same_front_trans : Transitive same_front.
Proof. unfold same_front. intros σ1 σ2 σ3 H12 H23. congruence. Qed.

Lemma preserves_bind {A B : Type} (R : relation state) `{!Transitive R}
    (c : action A) (f : A → action B) :
  preserves R c → (∀ a, preserves R (f a)) → preserves R (c ≫= f).
Proof.
  intros Hc Hf σ r σ'. unfold mbind, action_bind.
  destruct (c σ) as [[a|e] σ1] eqn:E.
  - intros Hfa. etrans; [exact (Hc _ _ _ E) | exact (Hf _ _ _ _ Hfa)].
  - intros [= <- <-]. exact (Hc _ _ _ E).
Qed.

Lemma preserves_lift {A : Type} (R : relation state) `{!Reflexive R} (r : res A) :
  preserves R (lift r).
Proof. intros σ r' σ' [= <- <-]. reflexivity. Qed.

Lemma preserves_ret {A : Type} (R : relation state) `{!Reflexive R} (a : A) :
  preserves R (mret a).
Proof. intros σ r' σ' [= <- <-]. reflexivity. Qed.

Lemma preserves_get_self (R : relation state) `{!Reflexive R} :
  preserves R get_self.
Proof. intros σ r' σ' [= <- <-]. reflexivity. Qed.

Lemma preserves_except {A : Type} (R : relation state) (body : action A) :
  preserves R body → preserves R (except_IndexError body).
Proof.
  intros Hb σ r σ'. unfold except_IndexError.
  destruct (body σ) as [[a|e] σ1] eqn:E.
  - intros [= <- <-]. exact (Hb _ _ _ E).
  - destruct e; intros [= <- <-]; exact (Hb _ _ _ E).
Qed.

Lemma same_calls_set_self (g : AuditLogIterator → AuditLogIterator) :
  preserves same_calls (set_self g).
Proof. by intros σ r σ' [= <- <-]. Qed.

Lemma same_calls_merge (field : AuditLogIterator → ref)
    (set_field : ref → AuditLogIterator → AuditLogIterator)
    (f : extern_fn) (raw : json) :
  preserves same_calls (merge field set_field f raw).
Proof.
  unfold merge. destruct (truthy raw); [|by apply preserves_ret].
  apply preserves_bind; [apply _ | by apply preserves_get_self |]. intros it.
  apply preserves_bind; [apply _ | by intros σ r σ' [= <- <-] |]. intros fresh.
  apply preserves_bind; [apply _ | apply same_calls_set_self |]. intros _.
  apply preserves_bind; [apply _ | by apply preserves_lift |]. intros items.
  by intros σ r σ' [= <- <-].
Qed.

Lemma same_front_set_self (g : AuditLogIterator → AuditLogIterator) :
  (∀ it, _front (g it) = _front it) → preserves same_front (set_self g).
Proof. intros Hg σ r σ' [= <- <-]. apply Hg. Qed.

Lemma same_front_merge (field : AuditLogIterator → ref)
    (set_field : ref → AuditLogIterator → AuditLogIterator)
    (f : extern_fn) (raw : json) :
  (∀ r it, _front (set_field r it) = _front it) →
  preserves same_front (merge field set_field f raw).
Proof.
  intros Hset. unfold merge. destruct (truthy raw); [|by apply preserves_ret].
  apply preserves_bind; [apply _ | by apply preserves_get_self |]. intros it.
  apply preserves_bind; [apply _ | by intros σ r σ' [= <- <-] |]. intros fresh.
  apply preserves_bind; [apply _ | by apply same_front_set_self |]. intros _.
  apply preserves_bind; [apply _ | by apply preserves_lift |]. intros items.
  by intros σ r σ' [= <- <-].
Qed.

Lemma fill_unfold (σ : state) :
  _fill σ = (await_request (fill_args (self σ)) ≫= fill_rest (_limit (self σ))) σ.
Proof. reflexivity. Qed.

Ltac preserves_steps :=
  repeat first
    [ apply preserves_bind; [apply _ | | intros ?]
    | apply preserves_lift; apply _
    | apply preserves_ret; apply _
    | apply preserves_get_self; apply _
    | apply same_calls_set_self
    | apply same_calls_merge
    | apply same_front_set_self; done
    | apply same_front_merge; done ].

Lemma fill_rest_same_calls (n : option Z) (payload : json) :
  preserves same_calls (fill_rest n payload).
Proof. unfold fill_rest. destruct n; preserves_steps. Qed.

Lemma fill_rest_same_front (n : option Z) (payload : json) :
  preserves same_front (fill_rest n payload).
Proof. unfold fill_rest. destruct n; preserves_steps. Qed.

(** [_fill] calls the request function exactly once, whatever comes of it,
    and never moves the cursor. *)
Lemma fill_calls (σ σ' : state) (r : res unit) :
  _fill σ = (r, σ') → calls σ' = calls σ ++ [fill_args (self σ)].
Proof.
  rewrite fill_unfold. unfold mbind, action_bind, await_request.
  destruct (request (fill_args (self σ)) (session σ)) as [[payload|e] w].
  - intros Hrest. by rewrite (fill_rest_same_calls _ _ _ _ _ Hrest).
  - by intros [= <- <-].
Qed.

Lemma fill_front (σ σ' : state) (r : res unit) :
  _fill σ = (r, σ') → _front (self σ') = _front (self σ).
Proof.
  rewrite fill_unfold. unfold mbind, action_bind, await_request.
  destruct (request (fill_args (self σ)) (session σ)) as [[payload|e] w].
  - intros Hrest. by rewrite (fill_rest_same_front _ _ _ _ _ Hrest).
  - by intros [= <- <-].
Qed.

Lemma take_entry_calls : preserves same_calls take_entry.
Proof.
  unfold take_entry. apply preserves_except. preserves_steps.
Qed.

Lemma take_entry_Ok (σ σ' : state) (e : AuditLogEntry) :
  take_entry σ = (Ok e, σ') →
  _front (self σ') = Some (Snowflake_str (entry_id e)).
Proof.
  unfold take_entry, except_IndexError.
  unfold mbind, action_bind, get_self, lift, set_self, mret, action_ret.
  destruct (list_pop (_buffer (self σ))) as [[pl b]|x]; cbn [fst snd self].
  - destruct (AuditLogEntry_deserialize pl) as [e'|x].
    + by intros [= <- <-].
    + by destruct x.
  - by destruct x.
Qed.

Lemma take_entry_Raise (σ σ' : state) (x : exn) :
  take_entry σ = (Raise x, σ') → _front (self σ') = _front (self σ).
Proof.
  unfold take_entry, except_IndexError.
  unfold mbind, action_bind, get_self, lift, set_self, mret, action_ret.
  destruct (list_pop (_buffer (self σ))) as [[pl b]|y]; cbn [fst snd self].
  - destruct (AuditLogEntry_deserialize pl) as [e'|y]; [done|].
    by destruct y; intros [= <- <-].
  - by destruct y; intros [= <- <-].
Qed.

(** [__anext__] requests a page exactly when nothing is buffered and the
    budget is not zero, and then exactly once. *)
Lemma anext_calls (σ σ' : state) (r : res AuditLogEntry) :
  __anext__ σ = (r, σ') →
  calls σ' =
    calls σ ++
      (if bool_decide (_buffer (self σ) = []) && limit_nonzero (_limit (self σ))
       then [fill_args (self σ)] else []).
Proof.
  rewrite anext_unfold. unfold mbind at 1, action_bind at 1.
  destruct (bool_decide (_buffer (self σ) = []) && limit_nonzero (_limit (self σ))).
  - destruct (_fill σ) as [[[]|x] σ1] eqn:E.
    + intros Ht. by rewrite (take_entry_calls _ _ _ Ht), (fill_calls _ _ _ E).
    + intros [= <- <-]. by rewrite (fill_calls _ _ _ E).
  - unfold mret, action_ret. intros Ht.
    by rewrite (take_entry_calls _ _ _ Ht), app_nil_r.
Qed.

Lemma anext_front_Ok (σ σ' : state) (e : AuditLogEntry) :
  __anext__ σ = (Ok e, σ') →
  _front (self σ') = Some (Snowflake_str (entry_id e)).
Proof.
  rewrite anext_unfold. unfold mbind at 1, action_bind at 1.
  destruct (bool_decide (_buffer (self σ) = []) && limit_nonzero (_limit (self σ))).
  - destruct (_fill σ) as [[[]|x] σ1]; [apply take_entry_Ok | done].
  - apply take_entry_Ok.
Qed.

Lemma anext_front_Raise (σ σ' : state) (x : exn) :
  __anext__ σ = (Raise x, σ') → _front (self σ') = _front (self σ).
Proof.
  rewrite anext_unfold. unfold mbind at 1, action_bind at 1.
  destruct (bool_decide (_buffer (self σ) = []) && limit_nonzero (_limit (self σ))).
  - destruct (_fill σ) as [[[]|y] σ1] eqn:E.
    + intros Ht. by rewrite (take_entry_Raise _ _ _ Ht), (fill_front _ _ _ E).
    + intros [= <- <-]. by rewrite (fill_front _ _ _ E).
  - unfold mret, action_ret. apply take_entry_Raise.
Qed.


(** *** Runs to exhaustion *)

Lemma serves_app (a b : list (gmap string json)) :
  ∀ w w_end, serves w (a ++ b) w_end →
             ∃ w', serves w a w' ∧ serves w' b w_end.
Proof.
  induction a as [|p a IH]; intros w w_end Hs.
  - exists w. split; [constructor | done].
  - inversion Hs as [|? w1 ? ? ? Hreq Hs']; subst.
    destruct (IH _ _ Hs') as (w' & Ha & Hb).
    exists w'. split; [by econstructor | done].
Qed.

Lemma async_for_one_stop (σ σ' : state) (x : exn) :
  __anext__ σ = (Raise x, σ') → async_for 1 σ = ([], Some x, σ').
Proof. intros Hn. simpl. by rewrite Hn. Qed.

(** Pages followed by an empty page: everything is yielded, then the
    empty page ends the iteration. *)
Lemma paging_to_empty_page
    (pages : list (gmap string json * list json * list AuditLogEntry))
    (p_end : gmap string json) (σ : state) kw l f w cs w_end :
  paging_view σ = (kw, l, [], f, w, cs) →
  serves w (pages.*1.*1 ++ [p_end]) w_end →
  Forall (λ pg, good_page pg.1.1 pg.1.2 pg.2 ∧ pg.1.2 ≠ []) pages →
  good_page p_end [] [] →
  budget_allows l (length <$> pages.*2) →
  limit_nonzero (spend l (length (concat pages.*2))) = true →
  ∀ n, length (concat pages.*2) < n →
    ∃ σ', async_for n σ = (concat pages.*2, Some StopAsyncIteration, σ') ∧
          paging_view σ' =
            (kw, spend l (length (concat pages.*2)), [],
             front_after (concat pages.*2) f, w_end,
             (cs ++ requests kw l f pages.*2)
               ++ [request_for kw (front_after (concat pages.*2) f)
                     (spend l (length (concat pages.*2)))]).
Proof.
  intros Hv Hs Hgood Hend Hbudget Hlast n Hn.
  apply serves_app in Hs as (w3 & Hs & Hs_end).
  destruct (paging_run pages σ kw l f w cs w3 Hv Hs Hgood Hbudget)
    as (σ3 & Hrun & Hv3).
  inversion Hs_end as [|? w4 ? ? ? Hreq Hnil]; subst.
  inversion Hnil; subst.
  destruct (paging_empty_page σ3 _ _ _ _ _ p_end w_end Hv3 Hlast (Hreq _) Hend)
    as (σ' & Hstop & Hv').
  exists σ'. split; [|done].
  apply (async_for_stopped (length (concat pages.*2) + 1)); [|lia].
  rewrite (async_for_app _ _ _ _ _ Hrun), (async_for_one_stop _ _ _ Hstop).
  by rewrite app_nil_r.
Qed.

Lemma sum_list_lengths {A : Type} (ls : list (list A)) :
  sum_list (length <$> ls) = length (concat ls).
Proof.
  induction ls as [|l ls IH]; [done|].
  cbn [fmap list_fmap concat]. rewrite length_app, <- IH. reflexivity.
Qed.

(** Pages that hold exactly the budget: everything is yielded, then the
    spent budget ends the iteration without another request. *)
Lemma paging_to_spent_budget
    (pages : list (gmap string json * list json * list AuditLogEntry))
    (σ : state) kw (budget : Z) f w cs w_end :
  paging_view σ = (kw, Some budget, [], f, w, cs) →
  serves w (pages.*1.*1) w_end →
  Forall (λ pg, good_page pg.1.1 pg.1.2 pg.2 ∧ pg.1.2 ≠ []) pages →
  Z.of_nat (length (concat pages.*2)) = budget →
  ∀ n, length (concat pages.*2) < n →
    ∃ σ', async_for n σ = (concat pages.*2, Some StopAsyncIteration, σ') ∧
          paging_view σ' =
            (kw, Some 0%Z, [], front_after (concat pages.*2) f, w_end,
             cs ++ requests kw (Some budget) f pages.*2).
Proof.
  intros Hv Hs Hgood Htotal n Hn.
  assert (Hsizes : Forall (λ s, s ≠ 0) (length <$> pages.*2)).
  { clear -Hgood. induction Hgood as [|[[p es] ents] pages [Hp Hne] _ IH];
      [constructor|].
    cbn [fmap list_fmap snd]. constructor; [|exact IH].
    destruct Hp as (_ & Hm & _). apply map_res_length in Hm.
    cbn [fst snd] in *. rewrite Hm. by destruct es. }
  assert (Hsum := sum_list_lengths pages.*2).
  destruct (paging_run pages σ kw (Some budget) f w cs w_end Hv Hs Hgood)
    as (σ' & Hrun & Hv').
  { apply budget_allows_exact; [done | by rewrite Hsum]. }
  assert (Hspent : spend (Some budget) (length (concat pages.*2)) = Some 0%Z)
    by (simpl; f_equal; lia).
  rewrite Hspent in Hv'.
  exists σ'. split; [|done].
  apply (async_for_stopped (length (concat pages.*2) + 1)); [|lia].
  rewrite (async_for_app _ _ _ _ _ Hrun).
  injection Hv' as _ Hl Hb _ _ _.
  rewrite (async_for_one_stop _ _ _ (anext_budget_spent σ' Hb Hl)).
  by rewrite app_nil_r.
Qed.

Lemma map_res_app {A B : Type} (f : A → res B) (xs xs' : list A) (ys ys' : list B) :
  map_res f xs = Ok ys → map_res f xs' = Ok ys' →
  map_res f (xs ++ xs') = Ok (ys ++ ys').
Proof.
  revert ys. induction xs as [|x xs IH]; intros ys; simpl.
  - by intros [= <-].
  - intros Hm Hm'. apply bind_Ok in Hm as (y & Hy & Hm).
    apply bind_Ok in Hm as (ys0 & Hys & Hm). injection Hm as <-.
    rewrite Hy. simpl. by rewrite (IH ys0 Hys Hm').
Qed.

Lemma requests_length kw l f (yields : list (list AuditLogEntry)) :
  length (requests kw l f yields) = length yields.
Proof.
  revert l f. induction yields as [|ents rest IH]; intros l f; [done|].
  simpl. by rewrite IH.
Qed.

Lemma init_view (guild : string) (w : world) (before user : option string)
    (action limit : option Z) :
  paging_view (AuditLogIterator_init guild w before user action limit)
    = ((guild, user, action), limit, [], before, w, []).
Proof. reflexivity. Qed.

(** C1, as the code has it.  When the request function returns pages of
    100, 100 and 37 entry payloads and then an empty page, iterating with
    [limit=None] yields exactly those 237 entries and then signals
    exhaustion, after four requests.  Each page is yielded in the order in
    which it was returned, newest entry first: what is yielded is
    the decoding of [es1 ++ es2 ++ es3]. *)
Theorem paging_yields_pages_as_returned
    (guild : string) (w w_end : world) (before user : option string)
    (action : option Z) (p1 p2 p3 p4 : gmap string json)
    (es1 es2 es3 : list json) (e1 e2 e3 : list AuditLogEntry) :
  serves w [p1; p2; p3; p4] w_end →
  good_page p1 es1 e1 → good_page p2 es2 e2 → good_page p3 es3 e3 →
  good_page p4 [] [] →
  length es1 = 100 → length es2 = 100 → length es3 = 37 →
  ∀ n, 237 < n →
    ∃ σ', async_for n (AuditLogIterator_init guild w before user action None)
            = (e1 ++ e2 ++ e3, Some StopAsyncIteration, σ') ∧
          length (e1 ++ e2 ++ e3) = 237 ∧
          map_res AuditLogEntry_deserialize (es1 ++ es2 ++ es3)
            = Ok (e1 ++ e2 ++ e3) ∧
          length (calls σ') = 4.
Proof.
  intros Hs H1 H2 H3 H4 L1 L2 L3 n Hn.
  assert (M1 := H1). destruct M1 as (_ & M1 & _).
  assert (M2 := H2). destruct M2 as (_ & M2 & _).
  assert (M3 := H3). destruct M3 as (_ & M3 & _).
  assert (Hlen : length (e1 ++ e2 ++ e3) = 237).
  { rewrite !length_app, (map_res_length _ _ _ M1), (map_res_length _ _ _ M2),
      (map_res_length _ _ _ M3). lia. }
  destruct (paging_to_empty_page [(p1, es1, e1); (p2, es2, e2); (p3, es3, e3)] p4
              (AuditLogIterator_init guild w before user action None)
              (guild, user, action) None before w [] w_end) with (n := n)
    as (σ' & Hrun & Hv).
  - apply init_view.
  - exact Hs.
  - assert (N1 : es1 ≠ []) by (intros ->; discriminate).
    assert (N2 : es2 ≠ []) by (intros ->; discriminate).
    assert (N3 : es3 ≠ []) by (intros ->; discriminate).
    repeat (apply Forall_cons; split); by try apply Forall_nil.
  - exact H4.
  - apply budget_allows_unbounded.
  - reflexivity.
  - cbn [fmap list_fmap snd concat]. rewrite app_nil_r. lia.
  - cbn [fmap list_fmap snd concat] in Hrun, Hv. rewrite app_nil_r in Hrun, Hv.
    exists σ'. repeat split; [exact Hrun | exact Hlen | |].
    + by apply map_res_app; [|apply map_res_app].
    + injection Hv as _ _ _ _ _ ->. reflexivity.
Qed.



(** *** The side mappings *)

(** [_fill] only ever adds dict objects to the store. *)
Lemma fill_result_heap (σ : state) (w' : world) (es : list json)
    (iu iw ii : option (gmap Snowflake extern)) :
  ∃ new, heap (fill_result σ w' es iu iw ii) = heap σ ++ new.
Proof.
  unfold fill_result. destruct iu, iw, ii; cbn;
    rewrite <- ?app_assoc; eexists; try reflexivity.
  by rewrite app_nil_r.
Qed.

Lemma merge_result_frame (field : AuditLogIterator → ref)
    (set_field : ref → AuditLogIterator → AuditLogIterator)
    (items : option (gmap Snowflake extern)) (s : state) (r : ref)
    (d : gmap Snowflake extern) :
  heap s !! r = Some d → heap (merge_result field set_field items s) !! r = Some d.
Proof.
  intros Hr. destruct items as [new|]; [|done].
  by apply lookup_app_l_Some.
Qed.

Lemma merge_result_other (field g : AuditLogIterator → ref)
    (set_field : ref → AuditLogIterator → AuditLogIterator)
    (items : option (gmap Snowflake extern)) (s : state) :
  (∀ r it, g (set_field r it) = g it) →
  g (self (merge_result field set_field items s)) = g (self s).
Proof. intros Hg. destruct items as [new|]; [apply Hg | done]. Qed.

Lemma merge_result_merged (field : AuditLogIterator → ref)
    (set_field : ref → AuditLogIterator → AuditLogIterator)
    (s : state) (new old : gmap Snowflake extern) :
  (∀ r it, field (set_field r it) = r) →
  heap s !! field (self s) = Some old →
  let s' := merge_result field set_field (Some new) s in
  heap s' !! field (self s') = Some (new ∪ old) ∧
  field (self s') = length (heap s).
Proof.
  intros Hf Hold. cbn [merge_result alloc_field self heap].
  rewrite Hf, Hold. split; [|done]. by apply list_lookup_middle.
Qed.

(** C4.  Take the state at a fetch whose page carries a side list (users,
    webhooks or integrations) that decodes to [new], and let [old] be the
    mapping the iterator holds for it, the one a caller may have captured
    after the previous fetch.  After [_fill] the iterator holds a new dict
    object with the items of both, those of [new] first; the captured
    object still holds [old]; and no dict object that existed has changed.
    Starting from the empty mapping of a new iterator the result is [new]
    itself. *)
Theorem merge_is_copy_on_write (a : side_attr) (σ : state)
    (p : gmap string json) (es : list json) (w' : world)
    (iu iw ii : option (gmap Snowflake extern)) (new old : gmap Snowflake extern) :
  request (fill_args (self σ)) (session σ) = (Ok (JObj p), w') →
  p !! "audit_log_entries" = Some (JList es) →
  side p "users" User_deserialize iu →
  side p "webhooks" Webhook_deserialize iw →
  side p "integrations" PartialGuildIntegration_deserialize ii →
  attr_items a iu iw ii = Some new →
  heap σ !! attr_ref a (self σ) = Some old →
  ∃ σ', _fill σ = (Ok (), σ') ∧
        heap σ' !! attr_ref a (self σ') = Some (new ∪ old) ∧
        (∀ k, (new ∪ old) !! k =
                match new !! k with Some x => Some x | None => old !! k end) ∧
        heap σ' !! attr_ref a (self σ) = Some old ∧
        attr_ref a (self σ') ≠ attr_ref a (self σ) ∧
        (∀ r d, heap σ !! r = Some d → heap σ' !! r = Some d) ∧
        (old = ∅ → heap σ' !! attr_ref a (self σ') = Some new).
Proof.
  intros Hreq Hes Hu Hw Hi Hnew Hold.
  exists (fill_result σ w' es iu iw ii).
  split; [exact (fill_ok σ p es w' iu iw ii Hreq Hes Hu Hw Hi)|].
  assert (Hvalid := lookup_lt_Some _ _ _ Hold).
  assert (Hframe : ∀ r d, heap σ !! r = Some d →
                          heap (fill_result σ w' es iu iw ii) !! r = Some d).
  { intros r d Hr. unfold fill_result. by do 3 apply merge_result_frame. }
  assert (Hmerged : heap (fill_result σ w' es iu iw ii)
                      !! attr_ref a (self (fill_result σ w' es iu iw ii))
                    = Some (new ∪ old) ∧
                    length (heap σ)
                      ≤ attr_ref a (self (fill_result σ w' es iu iw ii))).
  { unfold fill_result.
    set (σa := {| self := after_fetch es (self σ); heap := heap σ;
                  session := w'; calls := calls σ ++ [fill_args (self σ)] |}).
    assert (Ha : ∀ g : AuditLogIterator → ref,
                      (∀ l it, g (with_limit l it) = g it) →
                      (∀ b it, g (with_buffer b it) = g it) →
                      g (self σa) = g (self σ)).
    { intros g Hgl Hgb. unfold σa, after_fetch. cbn [self].
      rewrite Hgb. by destruct (_limit (self σ)); rewrite ?Hgl. }
    set (σu := merge_result users with_users iu σa).
    set (σw := merge_result webhooks with_webhooks iw σu).
    assert (Hσu : ∃ more, heap σu = heap σ ++ more).
    { unfold σu. destruct iu; cbn; eexists; [done | by rewrite app_nil_r]. }
    assert (Hσw : ∃ more, heap σw = heap σ ++ more).
    { destruct Hσu as [more Hm]. unfold σw.
      destruct iw; cbn; rewrite Hm, <- ?app_assoc; by eexists. }
    destruct a; cbn [attr_items attr_ref] in *; subst.
    - assert (Hold' : heap σa !! users (self σa) = Some old)
        by (by rewrite (Ha users)).
      destruct (merge_result_merged users with_users σa new old) as [Hm Hr];
        [done | done |]. fold σu in Hm, Hr.
      assert (Hsame : users (self (merge_result integrations with_integrations ii σw))
                      = users (self σu)).
      { rewrite (merge_result_other _ users) by done. unfold σw.
        by rewrite (merge_result_other _ users). }
      rewrite Hsame.
      split; [by do 2 apply merge_result_frame | by rewrite Hr].
    - assert (Hold' : heap σu !! webhooks (self σu) = Some old).
      { unfold σu. rewrite (merge_result_other _ webhooks) by done.
        apply merge_result_frame. by rewrite (Ha webhooks). }
      destruct (merge_result_merged webhooks with_webhooks σu new old) as [Hm Hr];
        [done | done |]. fold σw in Hm, Hr.
      rewrite (merge_result_other _ webhooks) by done.
      split; [by apply merge_result_frame |].
      rewrite Hr. destruct Hσu as [more ->]. rewrite length_app. lia.
    - assert (Hold' : heap σw !! integrations (self σw) = Some old).
      { unfold σw. rewrite (merge_result_other _ integrations) by done.
        apply merge_result_frame.
        unfold σu. rewrite (merge_result_other _ integrations) by done.
        apply merge_result_frame. by rewrite (Ha integrations). }
      destruct (merge_result_merged integrations with_integrations σw new old)
        as [Hm Hr]; [done | done |].
      split; [done |].
      rewrite Hr. destruct Hσw as [more ->]. rewrite length_app. lia. }
  destruct Hmerged as [Hm Hge].
  repeat split; try done.
  - intros k. rewrite lookup_union. by destruct (new !! k), (old !! k).
  - by apply Hframe.
  - lia.
  - intros ->. by rewrite Hm, (right_id_L ∅ (∪)).
Qed.

(** ** Further properties

    What the code shows beyond the statements above: the enumerations and
    converters, the mappings keyed by id, the failures of the decoders and
    of the iterator, and what a run of the iterator preserves. *)

(** *** Enumerations *)

Lemma change_key_cast_value (k : AuditLogChangeKey.t) :
  AuditLogChangeKey.cast (JStr (AuditLogChangeKey.value k)) = Ok k.
Proof. by destruct k. Qed.

Lemma change_key_cast_inv (raw : json) (k : AuditLogChangeKey.t) :
  AuditLogChangeKey.cast raw = Ok k → raw = JStr (AuditLogChangeKey.value k).
Proof.
  destruct raw as [| | |s| |]; try discriminate. unfold AuditLogChangeKey.cast.
  destruct (List.find _ _) as [k'|] eqn:E; [|discriminate].
  intros [= <-]. apply find_some in E as [_ E].
  apply String.eqb_eq in E. by rewrite E.
Qed.

(** X1.  Looking a change key up by value inverts [value]: every member is
    found under its own value and under nothing else, so distinct members
    have distinct values, and text that is no member's value is refused
    with [ValueError]. *)
Theorem change_key_value_round_trip :
  (∀ k, AuditLogChangeKey.cast (JStr (AuditLogChangeKey.value k)) = Ok k) ∧
  (∀ raw k, AuditLogChangeKey.cast raw = Ok k →
            raw = JStr (AuditLogChangeKey.value k)) ∧
  (∀ k k', AuditLogChangeKey.value k = AuditLogChangeKey.value k' → k = k') ∧
  (∀ s, s ∉ AuditLogChangeKey.value <$> AuditLogChangeKey.members →
        AuditLogChangeKey.cast (JStr s) = Raise ValueError).
Proof.
  split; [exact change_key_cast_value|]. split; [exact change_key_cast_inv|]. split.
  - intros k k' Hv. assert (Hc := change_key_cast_value k).
    rewrite Hv, change_key_cast_value in Hc. by injection Hc.
  - intros s Hs. unfold AuditLogChangeKey.cast.
    destruct (List.find _ _) as [k|] eqn:E; [|done].
    apply find_some in E as [Hin E]. apply String.eqb_eq in E. subst s.
    exfalso. apply Hs. apply list_elem_of_fmap_2. by apply list_elem_of_In.
Qed.

(** X2.  [str()] and [repr()] of a change key give the member's name and
    never its wire value; distinct members print differently, and the
    alias [COLOUR] prints as [COLOR]. *)
Theorem change_key_str_is_member_name :
  (∀ k, AuditLogChangeKey.__repr__ k = AuditLogChangeKey.__str__ k) ∧
  (∀ k k', AuditLogChangeKey.__str__ k = AuditLogChangeKey.__str__ k' → k = k') ∧
  (∀ k, AuditLogChangeKey.__str__ k ≠ AuditLogChangeKey.value k) ∧
  AuditLogChangeKey.__str__ AuditLogChangeKey.COLOUR = "COLOR".
Proof.
  split; [done|]. split; [|split; [|done]].
  - intros k k' Hs.
    assert (Hf : ∀ k, List.find (λ k', String.eqb (AuditLogChangeKey.name k')
                                         (AuditLogChangeKey.name k))
                        AuditLogChangeKey.members = Some k)
      by (by intros []).
    assert (Hk := Hf k). unfold AuditLogChangeKey.__str__ in Hs.
    rewrite Hs, Hf in Hk. by injection Hk.
  - by intros [].
Qed.

Lemma event_type_of_value (e : AuditLogEventType.t) :
  AuditLogEventType.of_value (AuditLogEventType.value e) = Some e.
Proof. by destruct e. Qed.

Lemma event_type_of_value_inv (z : Z) (e : AuditLogEventType.t) :
  AuditLogEventType.of_value z = Some e → AuditLogEventType.value e = z.
Proof.
  unfold AuditLogEventType.of_value. intros E.
  apply find_some in E as [_ E]. by apply Z.eqb_eq in E.
Qed.

Lemma event_type_value_inj (e e' : AuditLogEventType.t) :
  AuditLogEventType.value e = AuditLogEventType.value e' → e = e'.
Proof.
  intros Hv. assert (Hc := event_type_of_value e).
  rewrite Hv, event_type_of_value in Hc. by injection Hc.
Qed.

(** X3.  [AuditLogEventType] is unique by value, as [enum.unique] demands:
    no two members share a number, every member is found again from its
    number, a cast succeeds only on a number that is some member's value
    (the boolean [True] counts as 1 and gives [GUILD_UPDATE], [False]
    gives nothing), and text never casts. *)
Theorem event_type_values_are_unique :
  (∀ e e', AuditLogEventType.value e = AuditLogEventType.value e' → e = e') ∧
  (∀ e, AuditLogEventType.cast (JInt (AuditLogEventType.value e)) = Ok e) ∧
  (∀ raw e, AuditLogEventType.cast raw = Ok e →
            number raw = Ok (AuditLogEventType.value e)) ∧
  (∀ raw z, number raw = Ok z →
            z ∉ AuditLogEventType.value <$> AuditLogEventType.members →
            AuditLogEventType.cast raw = Raise ValueError) ∧
  AuditLogEventType.cast (JBool true) = Ok AuditLogEventType.GUILD_UPDATE ∧
  AuditLogEventType.cast (JBool false) = Raise ValueError ∧
  (∀ s, AuditLogEventType.cast (JStr s) = Raise ValueError).
Proof.
  split; [exact event_type_value_inj|]. split; [|split; [|split]].
  - intros e. simpl. by rewrite event_type_of_value.
  - intros raw e. destruct raw as [|b|z| | |]; try discriminate; simpl.
    + destruct (AuditLogEventType.of_value _) as [e'|] eqn:E; [|discriminate].
      intros [= <-]. by rewrite (event_type_of_value_inv _ _ E).
    + destruct (AuditLogEventType.of_value _) as [e'|] eqn:E; [|discriminate].
      intros [= <-]. by rewrite (event_type_of_value_inv _ _ E).
  - assert (Hno : ∀ z, z ∉ AuditLogEventType.value <$> AuditLogEventType.members →
                       AuditLogEventType.of_value z = None).
    { intros z Hz. destruct (AuditLogEventType.of_value z) as [e|] eqn:E; [|done].
      exfalso. apply Hz. apply find_some in E as [Hin E]. apply Z.eqb_eq in E.
      subst z. apply list_elem_of_fmap_2. by apply list_elem_of_In. }
    intros raw z Hn Hz. destruct raw as [|b|z'| | |]; try discriminate;
      simpl in *; injection Hn as ->; by rewrite (Hno _ Hz).
  - done.
Qed.

(** *** Converters *)

Lemma number_py_int (payload : json) (n : Z) :
  number payload = Ok n → py_int payload = Ok n.
Proof. by destruct payload. Qed.


Lemma timedelta_days_seconds (d : Z) :
  timedelta_days d = timedelta_seconds (86400 * d).
Proof.
  unfold timedelta_days, timedelta_seconds.
  by rewrite (Z.mul_comm 86400 d), Z.div_mul by done.
Qed.


(** *** Mappings keyed by id *)

Lemma by_id_lookup {K V : Type} `{Countable K} (key : V → K) (xs : list V)
    (d0 : gmap K V) (k : K) :
  foldl (λ d x, <[key x := x]> d) d0 xs !! k =
    match last (filter (λ x, key x = k) xs) with
    | Some x => Some x
    | None => d0 !! k
    end.
Proof.
  revert d0. induction xs as [|x xs IH]; intros d0; [done|].
  cbn [foldl]. rewrite IH. destruct (decide (key x = k)) as [Hk|Hk].
  - rewrite filter_cons_True by done. rewrite last_cons.
    destruct (last _); [done|]. by rewrite <- Hk, lookup_insert_eq.
  - rewrite filter_cons_False by done.
    destruct (last _); [done|]. by rewrite lookup_insert_ne.
Qed.

Lemma by_id_size {K V : Type} `{Countable K} (key : V → K) (xs : list V)
    (d0 : gmap K V) :
  size (foldl (λ d x, <[key x := x]> d) d0 xs) ≤ size d0 + length xs.
Proof.
  revert d0. induction xs as [|x xs IH]; intros d0; cbn [foldl length]; [lia|].
  etrans; [apply IH|]. rewrite map_size_insert.
  destruct (d0 !! key x); simpl; lia.
Qed.

Lemma by_id_size_NoDup {K V : Type} `{Countable K} (key : V → K) (xs : list V)
    (d0 : gmap K V) :
  NoDup (key <$> xs) → (∀ x, x ∈ xs → d0 !! key x = None) →
  size (foldl (λ d x, <[key x := x]> d) d0 xs) = size d0 + length xs.
Proof.
  revert d0. induction xs as [|x xs IH]; intros d0 Hnd Hfresh;
    cbn [foldl length]; [lia|].
  cbn [fmap list_fmap] in Hnd. apply NoDup_cons in Hnd as [Hx Hnd].
  rewrite IH; [| done |].
  - rewrite map_size_insert_None by (apply Hfresh; by left). lia.
  - intros y Hy. rewrite lookup_insert_ne.
    + apply Hfresh. by right.
    + intros Hk. apply Hx. rewrite Hk. by apply list_elem_of_fmap_2.
Qed.

(** What [{x.id: x for x in xs}] holds. *)
Lemma by_id_spec {K V : Type} `{Countable K} (key : V → K) (xs : list V) :
  let d : gmap K V := foldl (λ d x, <[key x := x]> d) ∅ xs in
  (∀ k, d !! k = last (filter (λ x, key x = k) xs)) ∧
  (∀ k x, d !! k = Some x → key x = k ∧ x ∈ xs) ∧
  (∀ x, x ∈ xs → is_Some (d !! key x)) ∧
  size d ≤ length xs ∧
  (NoDup (key <$> xs) →
     size d = length xs ∧ ∀ x, x ∈ xs → d !! key x = Some x).
Proof.
  intros d.
  assert (Hl : ∀ k, d !! k = last (filter (λ x, key x = k) xs)).
  { intros k. unfold d. rewrite by_id_lookup, lookup_empty. by destruct (last _). }
  assert (Hin : ∀ k x, d !! k = Some x → key x = k ∧ x ∈ xs).
  { intros k x. rewrite Hl. intros Hx. apply last_Some_elem_of in Hx.
    by apply list_elem_of_filter in Hx. }
  split; [exact Hl|]. split; [exact Hin|]. split; [|split].
  - intros x Hx. rewrite Hl. apply last_is_Some. intros Hnil.
    assert (Hf : x ∈ filter (λ y, key y = key x) xs)
      by (by apply list_elem_of_filter).
    rewrite Hnil in Hf. by apply not_elem_of_nil in Hf.
  - unfold d. etrans; [apply by_id_size|]. by rewrite map_size_empty.
  - intros Hnd. split.
    + unfold d. rewrite by_id_size_NoDup, map_size_empty; [done | done |].
      intros x _. apply lookup_empty.
    + intros x Hx. destruct (d !! key x) as [y|] eqn:E.
      * apply Hin in E as [Hk Hy]. f_equal.
        apply list_elem_of_lookup in Hx as [i Hi]. apply list_elem_of_lookup in Hy as [j Hj].
        assert (i = j) as ->.
        { apply (NoDup_lookup (key <$> xs) i j (key x)); [done | |];
            rewrite list_lookup_fmap; [by rewrite Hi | by rewrite Hj, <- Hk]. }
        congruence.
      * assert (Hs : is_Some (d !! key x)).
        { rewrite Hl. apply last_is_Some. intros Hnil.
          assert (Hf : x ∈ filter (λ y, key y = key x) xs)
            by (by apply list_elem_of_filter).
          rewrite Hnil in Hf. by apply not_elem_of_nil in Hf. }
        rewrite E in Hs. by destruct Hs.
Qed.

Lemma map_res_first_failure {A B : Type} (f : A → res B) (good : list A) (bad : A)
    (rest : list A) (ys : list B) (x : exn) :
  map_res f good = Ok ys → f bad = Raise x →
  map_res f (good ++ bad :: rest) = Raise x.
Proof.
  revert ys. induction good as [|a good IH]; intros ys; simpl.
  - intros _ ->. done.
  - intros Hm Hb. apply bind_Ok in Hm as (y & Hy & Hm).
    apply bind_Ok in Hm as (ys' & Hys & _). rewrite Hy. simpl.
    by rewrite (IH ys' Hys Hb).
Qed.

(** X6.  The comprehension [{x.id: x for x in map(f, payload)}], which
    builds the role and overwrite mappings of a change and the users,
    webhooks and integrations mappings: when every item decodes, each is
    filed under its own id, an id met twice keeps the later item, the
    mapping holds nothing else and is no larger than the list (as large
    when the ids differ); and the first item that fails to decode fails
    the whole with its error. *)
Theorem dict_by_id_is_keyed_by_id (f : extern_fn) (payload : json)
    (items : list json) :
  py_iter payload = Ok items →
  (∀ xs, map_res (extern_call f) items = Ok xs →
     ∃ d, dict_by_id f payload = Ok d ∧
          (∀ k, d !! k = last (filter (λ x, extern_id x = k) xs)) ∧
          (∀ k x, d !! k = Some x → extern_id x = k ∧ x ∈ xs) ∧
          (∀ x, x ∈ xs → is_Some (d !! extern_id x)) ∧
          size d ≤ length items ∧
          (NoDup (extern_id <$> xs) →
             size d = length items ∧ ∀ x, x ∈ xs → d !! extern_id x = Some x)) ∧
  (∀ good bad rest xs x,
     items = good ++ bad :: rest →
     map_res (extern_call f) good = Ok xs →
     extern_call f bad = Raise x →
     dict_by_id f payload = Raise x).
Proof.
  intros Hi. split.
  - intros xs Hm. unfold dict_by_id. rewrite Hi. cbn [mbind res_bind]. rewrite Hm.
    cbn [mbind res_bind]. eexists. split; [reflexivity|].
    rewrite <- (map_res_length _ _ _ Hm).
    apply (by_id_spec extern_id xs).
  - intros good bad rest xs x -> Hg Hb. unfold dict_by_id.
    rewrite Hi. cbn [mbind res_bind].
    by rewrite (map_res_first_failure _ _ _ _ _ _ Hg Hb).
Qed.

(** X7.  The [entries] attribute of [AuditLog]: the decoded entries keyed
    by their own ids, the later of two entries with one id winning, as
    many as the payload holds when the ids differ; an entry that fails to
    decode fails the attribute with that entry's error, whatever follows
    it. *)
Theorem audit_log_entries_by_id (payload : json) (items : list json) :
  py_iter payload = Ok items →
  (∀ es, map_res AuditLogEntry_deserialize items = Ok es →
     ∃ d, AuditLog_entries payload = Ok d ∧
          (∀ k, d !! k = last (filter (λ e, entry_id e = k) es)) ∧
          (∀ k e, d !! k = Some e → entry_id e = k ∧ e ∈ es) ∧
          size d ≤ length items ∧
          (NoDup (entry_id <$> es) →
             size d = length items ∧ ∀ e, e ∈ es → d !! entry_id e = Some e)) ∧
  (∀ good bad rest es x,
     items = good ++ bad :: rest →
     map_res AuditLogEntry_deserialize good = Ok es →
     AuditLogEntry_deserialize bad = Raise x →
     AuditLog_entries payload = Raise x).
Proof.
  intros Hi. split.
  - intros es Hm. unfold AuditLog_entries. rewrite Hi. cbn [mbind res_bind].
    rewrite Hm. cbn [mbind res_bind]. eexists. split; [reflexivity|].
    rewrite <- (map_res_length _ _ _ Hm).
    destruct (by_id_spec entry_id es) as (H1 & H2 & _ & H4 & H5). done.
  - intros good bad rest es x -> Hg Hb. unfold AuditLog_entries.
    rewrite Hi. cbn [mbind res_bind].
    by rewrite (map_res_first_failure _ _ _ _ _ _ Hg Hb).
Qed.

(** *** The registry *)

(** X8.  Registering an entry-info class changes the lookup of the types
    it is registered for and of no other type, an event type and its
    integer value are looked up alike, and before anything is registered
    every type resolves to the fallback class (an unhashable one failing
    with [TypeError]). *)
Theorem registration_leaves_other_types_alone :
  (∀ type_ more cls types t,
     t ∉ type_ :: more →
     get_entry_info_entity
       (register_audit_log_entry_info type_ more cls types) (KnownType t)
     = get_entry_info_entity types (KnownType t)) ∧
  (∀ type_ more cls types z,
     z ∉ AuditLogEventType.value <$> type_ :: more →
     get_entry_info_entity
       (register_audit_log_entry_info type_ more cls types) (RawType (JInt z))
     = get_entry_info_entity types (RawType (JInt z))) ∧
  (∀ types t,
     get_entry_info_entity types (RawType (JInt (AuditLogEventType.value t)))
     = get_entry_info_entity types (KnownType t)) ∧
  (∀ type_,
     get_entry_info_entity None type_ =
       match type_ with
       | RawType (JList _) | RawType (JObj _) => Raise TypeError
       | _ => Ok UnrecognisedAuditLogEntryInfo
       end).
Proof.
  split; [|split; [|split]].
  - intros type_ more cls types t Ht.
    unfold get_entry_info_entity, register_audit_log_entry_info, types_get.
    cbn [from_option id]. rewrite register_lookup.
    rewrite bool_decide_eq_false_2; [done|].
    intros (t' & Hv & Hin)%list_elem_of_fmap.
    apply event_type_value_inj in Hv. by subst t'.
  - intros type_ more cls types z Hz.
    unfold get_entry_info_entity, register_audit_log_entry_info, types_get.
    cbn [from_option id]. rewrite register_lookup.
    by rewrite bool_decide_eq_false_2.
  - done.
  - intros [t|[]]; done.
Qed.

(** *** Change deserialisation: failures and keys without a converter *)

Lemma known_key_resolves (k : AuditLogChangeKey.t) :
  try_cast (JStr (AuditLogChangeKey.value k))
    (λ v, KnownKey <$> AuditLogChangeKey.cast v)
    (RawKey (JStr (AuditLogChangeKey.value k))) = KnownKey k.
Proof. unfold try_cast. by rewrite change_key_cast_value. Qed.

(** X9.  Where [AuditLogChange.deserialize] fails and where it cannot: a
    payload without ["key"] fails with the lookup error, a payload that is
    no dict or a key that cannot be hashed with [TypeError]; under a known
    key with a converter, the converter's failure on the new value, or on
    the old value once the new one is through, is the failure of the whole;
    and under a known key without a converter both values are kept as they
    came, whatever they are. *)
Theorem change_failures_propagate (m : gmap string json) :
  (m !! "key" = None →
     AuditLogChange_deserialize (JObj m) = Raise (KeyError "key")) ∧
  (∀ payload, (∀ m', payload ≠ JObj m') →
     AuditLogChange_deserialize payload = Raise TypeError) ∧
  (∀ raw, m !! "key" = Some raw → hashable raw = false →
     AuditLogChange_deserialize (JObj m) = Raise TypeError) ∧
  (∀ k conv, m !! "key" = Some (JStr (AuditLogChangeKey.value k)) →
     AUDIT_LOG_ENTRY_CONVERTERS k = Some conv →
     let new_raw := default JNull (m !! "new_value") in
     let old_raw := default JNull (m !! "old_value") in
     (∀ x, new_raw ≠ JNull → conv new_raw = Raise x →
           AuditLogChange_deserialize (JObj m) = Raise x) ∧
     (∀ x, new_raw = JNull ∨ (∃ v, conv new_raw = Ok v) →
           old_raw ≠ JNull → conv old_raw = Raise x →
           AuditLogChange_deserialize (JObj m) = Raise x)) ∧
  (∀ k, m !! "key" = Some (JStr (AuditLogChangeKey.value k)) →
     AUDIT_LOG_ENTRY_CONVERTERS k = None →
     AuditLogChange_deserialize (JObj m) =
       Ok {| change_key_of := KnownKey k;
             change_new_value := VJson (default JNull (m !! "new_value"));
             change_old_value := VJson (default JNull (m !! "old_value")) |}).
Proof.
  split; [|split; [|split; [|split]]].
  - intros Hk. unfold AuditLogChange_deserialize. simpl. by rewrite Hk.
  - intros payload Hp. destruct payload; try done. by destruct (Hp m0).
  - intros raw Hk Hh. rewrite (change_deserialize_unfold m _ Hk).
    by destruct raw.
  - intros k conv Hk Hconv new_raw old_raw.
    rewrite (change_deserialize_unfold m _ Hk), known_key_resolves.
    fold new_raw old_raw. cbn [AUDIT_LOG_ENTRY_CONVERTERS_get mbind res_bind].
    rewrite Hconv. split.
    + intros x Hn Hx. apply is_None_false in Hn. by rewrite Hn, Hx.
    + intros x Hnew Ho Hx. apply is_None_false in Ho. rewrite Ho, Hx.
      destruct Hnew as [->|[v ->]]; [done|]. by destruct (is_None new_raw).
  - intros k Hk Hconv.
    rewrite (change_deserialize_unfold m _ Hk), known_key_resolves.
    cbn [AUDIT_LOG_ENTRY_CONVERTERS_get mbind res_bind]. by rewrite Hconv.
Qed.

(** *** Entry deserialisation: changes and the target id *)

Lemma map_res_lookup {A B : Type} (f : A → res B) (xs : list A) (ys : list B)
    (i : nat) (x : A) :
  map_res f xs = Ok ys → xs !! i = Some x → ∃ y, ys !! i = Some y ∧ f x = Ok y.
Proof.
  revert ys i. induction xs as [|a xs IH]; intros ys i; [done|]. simpl.
  intros Hm. apply bind_Ok in Hm as (y & Hy & Hm).
  apply bind_Ok in Hm as (ys' & Hys & Hm). injection Hm as <-.
  destruct i as [|i]; simpl.
  - intros [= <-]. eauto.
  - apply IH, Hys.
Qed.

(** X10.  The changes of a decoded entry follow its payload: none when
    ["changes"] is absent, otherwise one per item of the list and in the
    same order, each the decoding of the item at its position; so an entry
    decodes only if every one of its changes does. *)
Theorem entry_changes_follow_the_payload (m : gmap string json) (e : AuditLogEntry) :
  AuditLogEntry_deserialize (JObj m) = Ok e →
  (m !! "changes" = None → entry_changes e = []) ∧
  (∀ l, m !! "changes" = Some (JList l) →
     length (entry_changes e) = length l ∧
     (∀ i c, l !! i = Some c →
        ∃ ch, entry_changes e !! i = Some ch ∧
              AuditLogChange_deserialize c = Ok ch) ∧
     (∀ c x, c ∈ l → AuditLogChange_deserialize c ≠ Raise x)).
Proof.
  intros Hd. apply entry_deserialize_inv in Hd
    as (_ & _ & _ & _ & _ & _ & Hch & _). split.
  - intros Hc. rewrite Hc in Hch. simpl in Hch. by injection Hch.
  - intros l Hc. rewrite Hc in Hch. cbn [from_option id py_iter mbind res_bind] in Hch.
    split; [by apply map_res_length in Hch|]. split.
    + intros i c Hi. exact (map_res_lookup _ _ _ _ _ Hch Hi).
    + intros c x [i Hi]%list_elem_of_lookup Hx.
      destruct (map_res_lookup _ _ _ _ _ Hch Hi) as (ch & _ & Hok). congruence.
Qed.

(** X11.  A change that fails to decode fails the entry with the change's
    own error, before ["user_id"] and ["id"] are even looked at. *)
Theorem failing_change_fails_the_entry (m : gmap string json)
    (good : list json) (bad : json) (rest : list json)
    (chs : list AuditLogChange) (x : exn) :
  is_Some (m !! "action_type") → m !! "target_id" = None → m !! "options" = None →
  m !! "changes" = Some (JList (good ++ bad :: rest)) →
  map_res AuditLogChange_deserialize good = Ok chs →
  AuditLogChange_deserialize bad = Raise x →
  AuditLogEntry_deserialize (JObj m) = Raise x.
Proof.
  intros [rt Hat] Ht Ho Hc Hg Hb. unfold AuditLogEntry_deserialize.
  cbn [getitem get mbind res_bind]. rewrite Hat, Ht, Ho, Hc.
  cbn [from_option id truthy is_None mbind res_bind py_iter].
  by rewrite (map_res_first_failure _ _ _ _ _ _ Hg Hb).
Qed.

(** X12.  A ["target_id"] that is truthy is handed to
    [Snowflake.deserialize]: the entry's target id is its result, and if it
    fails, the entry fails with that error. *)
Theorem truthy_target_id_is_parsed (m : gmap string json) (v : json) :
  m !! "target_id" = Some v → truthy v = true →
  (∀ e, AuditLogEntry_deserialize (JObj m) = Ok e →
     ∃ s, Snowflake_deserialize v = Ok s ∧ entry_target_id e = VSnowflake s) ∧
  (∀ x, is_Some (m !! "action_type") → Snowflake_deserialize v = Raise x →
     AuditLogEntry_deserialize (JObj m) = Raise x).
Proof.
  intros Hv Ht. split.
  - unfold AuditLogEntry_deserialize. intros e Hd.
    apply bind_Ok in Hd as (raw_type & _ & Hd).
    apply bind_Ok in Hd as (target_raw & Hr & Hd).
    apply bind_Ok in Hd as (target_id & Hid & Hd).
    bind_inv Hd. injection Hd as <-. simpl.
    simpl in Hr. injection Hr as <-. rewrite Hv in Hid. simpl in Hid.
    rewrite Ht in Hid. apply fmap_Ok in Hid as (s & Hs & ->). eauto.
  - intros x [rt Hat] Hx. unfold AuditLogEntry_deserialize.
    cbn [getitem get mbind res_bind]. rewrite Hat, Hv.
    cbn [from_option id mbind res_bind]. by rewrite Ht, Hx.
Qed.

(** X13.  An action type that cannot be hashed (a list or a dict) makes
    the lookup of the entry-info class fail: with options present the entry
    fails with [TypeError]; without options the lookup is never made and
    the entry decodes, the raw action type kept. *)
Theorem unhashable_action_type_fails_with_options (m : gmap string json) (raw : json) :
  m !! "action_type" = Some raw → hashable raw = false →
  m !! "target_id" = None →
  (∀ o, m !! "options" = Some o → o ≠ JNull →
     AuditLogEntry_deserialize (JObj m) = Raise TypeError) ∧
  (∀ u us i is_,
     m !! "options" = None → m !! "changes" = None →
     m !! "user_id" = Some u → Snowflake_deserialize u = Ok us →
     m !! "id" = Some i → Snowflake_deserialize i = Ok is_ →
     AuditLogEntry_deserialize (JObj m) =
       Ok {| entry_id := is_;
             entry_target_id := VNone;
             entry_changes := [];
             entry_user_id := us;
             entry_action_type := RawType raw;
             entry_options := None;
             entry_reason := default JNull (m !! "reason") |}).
Proof.
  intros Hat Hh Ht.
  assert (Hty : try_cast raw (λ v, KnownType <$> AuditLogEventType.cast v)
                  (RawType raw) = RawType raw)
    by (by destruct raw).
  assert (Hget : get_entry_info_entity module_types (RawType raw) = Raise TypeError)
    by (by destruct raw).
  split.
  - intros o Ho Hn. unfold AuditLogEntry_deserialize.
    cbn [getitem get mbind res_bind]. rewrite Hat, Ht, Ho.
    cbn [from_option id truthy mbind res_bind]. rewrite Hty.
    apply is_None_false in Hn. by rewrite Hn, Hget.
  - intros u us i is_ Ho Hc Hu Hus Hi His. unfold AuditLogEntry_deserialize.
    cbn [getitem get mbind res_bind]. rewrite Hat, Ht, Ho, Hc, Hu, Hi.
    cbn [from_option id truthy is_None mbind res_bind py_iter map_res].
    by rewrite Hty, Hus, His.
Qed.

(** *** The iterator: failures *)

(** X14.  When the request function fails, [__anext__] fails with the very
    same exception ([IndexError] included: the fetch is outside the [try])
    and the iterator is as it was: only the request is on record, and a
    further call would make it again. *)
Theorem fetch_failure_reaches_the_consumer (σ : state) (x : exn) (w' : world) :
  _buffer (self σ) = [] → limit_nonzero (_limit (self σ)) = true →
  request (fill_args (self σ)) (session σ) = (Raise x, w') →
  __anext__ σ =
    (Raise x, {| self := self σ; heap := heap σ; session := w';
                 calls := calls σ ++ [fill_args (self σ)] |}).
Proof.
  intros Hb Hl Hreq. rewrite (anext_fetches σ Hb Hl).
  unfold mbind at 1, action_bind at 1. rewrite fill_unfold.
  unfold mbind, action_bind, await_request. by rewrite Hreq.
Qed.

(** X15.  A response without ["audit_log_entries"] fails with the lookup
    error, and a response that is no dict with [TypeError], before the
    iterator has changed anything: budget, buffer, cursor and mappings are
    as they were. *)
Theorem page_without_entry_list_is_refused (σ : state) (payload : json) (w' : world) :
  _buffer (self σ) = [] → limit_nonzero (_limit (self σ)) = true →
  request (fill_args (self σ)) (session σ) = (Ok payload, w') →
  let σ1 := {| self := self σ; heap := heap σ; session := w';
               calls := calls σ ++ [fill_args (self σ)] |} in
  (∀ p, payload = JObj p → p !! "audit_log_entries" = None →
        __anext__ σ = (Raise (KeyError "audit_log_entries"), σ1)) ∧
  ((∀ p, payload ≠ JObj p) → __anext__ σ = (Raise TypeError, σ1)).
Proof.
  intros Hb Hl Hreq σ1.
  assert (Hfill : _fill σ = fill_rest (_limit (self σ)) payload σ1).
  { rewrite fill_unfold. unfold mbind, action_bind, await_request. by rewrite Hreq. }
  rewrite (anext_fetches σ Hb Hl). unfold mbind, action_bind. rewrite Hfill.
  unfold fill_rest, mbind, action_bind, lift, mret, action_ret. split.
  - intros p -> Hnone. cbn [getitem]. rewrite Hnone. by destruct (_limit (self σ)).
  - intros Hp. destruct payload as [| | | | |p];
      try (by destruct (_limit (self σ))).
    by destruct (Hp p).
Qed.

(** X16.  A buffered entry that fails to decode is gone from the buffer
    all the same: [__anext__] fails with the decoding error (an
    [IndexError] being reported as the end of the iteration), the cursor
    stays, nothing is requested, and the next call goes on with the entry
    after it. *)
Theorem undecodable_entry_is_dropped (σ : state) (b : list json) (pl : json)
    (x : exn) :
  _buffer (self σ) = b ++ [pl] → AuditLogEntry_deserialize pl = Raise x →
  __anext__ σ = (Raise (reported x), with_self (with_buffer b) σ).
Proof.
  intros Hb He. rewrite anext_unfold.
  rewrite bool_decide_eq_false_2 by (rewrite Hb; by destruct b).
  cbn [andb]. unfold mbind at 1, action_bind at 1, mret at 1, action_ret at 1.
  unfold take_entry, except_IndexError.
  unfold mbind, action_bind, get_self, lift, set_self, mret, action_ret.
  rewrite Hb, list_pop_snoc. cbn [fst snd self heap session calls].
  rewrite He. by destruct x.
Qed.

(** *** What the steps of the iterator leave alone, continued *)

#[local] Instance keeps_refl {A : Type} (π : AuditLogIterator → A) :
  Reflexive (keeps π).
Proof. by intros σ. Qed.
#[local] Instance keeps_trans {A : Type} (π : AuditLogIterator → A) :
  Transitive (keeps π).
Proof. unfold keeps. intros σ1 σ2 σ3 H12 H23. congruence. Qed.
#[local] Instance heap_extends_refl : Reflexive heap_extends.
Proof. by intros σ r d. Qed.
#[local] Instance heap_extends_trans : Transitive heap_extends.
Proof. intros σ1 σ2 σ3 H12 H23 r d Hr. by apply H23, H12. Qed.
#[local] Instance grows_refl (a : side_attr) : Reflexive (grows a).
Proof. intros σ. unfold grows. reflexivity. Qed.
#[local] Instance grows_trans (a : side_attr) : Transitive (grows a).
Proof. unfold grows. intros σ1 σ2 σ3 H12 H23. by etrans. Qed.
#[local] Instance budget_shrinks_refl : Reflexive budget_shrinks.
Proof. intros σ. unfold budget_shrinks, budget_le. by destruct (_limit (self σ)). Qed.
#[local] Instance budget_shrinks_trans : Transitive budget_shrinks.
Proof.
  unfold budget_shrinks, budget_le. intros σ1 σ2 σ3.
  destruct (_limit (self σ1)), (_limit (self σ2)), (_limit (self σ3)); try done.
  lia.
Qed.

(** An action built like [__anext__] preserves whatever its primitive
    steps preserve. *)
Section steps.
Context (R : relation state) `{!Reflexive R} `{!Transitive R}.
Context (R_await : ∀ args, preserves R (await_request args)).
Context (R_buffer : ∀ b, preserves R (set_self (with_buffer b))).
Context (R_front : ∀ f, preserves R (set_self (with_front f))).
Context (R_users : ∀ raw, preserves R (merge users with_users User_deserialize raw)).
Context (R_webhooks :
  ∀ raw, preserves R (merge webhooks with_webhooks Webhook_deserialize raw)).
Context (R_integrations :
  ∀ raw, preserves R (merge integrations with_integrations
                        PartialGuildIntegration_deserialize raw)).

Ltac steps :=
  repeat first
    [ apply preserves_bind; [apply _ | | intros ?]
    | apply preserves_lift; apply _
    | apply preserves_ret; apply _
    | apply preserves_get_self; apply _
    | apply R_await | apply R_buffer | apply R_front
    | apply R_users | apply R_webhooks | apply R_integrations ].

Lemma take_entry_preserves : preserves R take_entry.
Proof. unfold take_entry. apply preserves_except. steps. Qed.

Lemma fill_preserves :
  (∀ l, preserves R (set_self (with_limit l))) → preserves R _fill.
Proof. intros R_limit. unfold _fill. steps. destruct (_limit _); steps. apply R_limit. Qed.

Lemma anext_preserves : preserves R _fill → preserves R __anext__.
Proof.
  intros R_fill. unfold __anext__. steps.
  - destruct (_ && _); [apply R_fill | by apply preserves_ret].
  - apply take_entry_preserves.
Qed.

Lemma run_preserves :
  preserves R __anext__ → ∀ n σ, R σ (async_for n σ).2.
Proof.
  intros R_next n. induction n as [|n IH]; intros σ; cbn [async_for]; [done|].
  destruct (__anext__ σ) as [[e|x] σ1] eqn:E.
  - specialize (IH σ1). destruct (async_for n σ1) as [[es stop] σ2].
    etrans; [exact (R_next _ _ _ E) | exact IH].
  - exact (R_next _ _ _ E).
Qed.
End steps.

Lemma keeps_set_self {A : Type} (π : AuditLogIterator → A)
    (g : AuditLogIterator → AuditLogIterator) :
  (∀ it, π (g it) = π it) → preserves (keeps π) (set_self g).
Proof. intros Hg σ r σ' [= <- <-]. apply Hg. Qed.

Lemma keeps_await {A : Type} (π : AuditLogIterator → A) (args : request_args) :
  preserves (keeps π) (await_request args).
Proof.
  intros σ r σ'. unfold await_request.
  destruct (request args (session σ)) as [r' w]. by intros [= <- <-].
Qed.

Lemma keeps_merge {A : Type} (π : AuditLogIterator → A)
    (field : AuditLogIterator → nat)
    (set_field : nat → AuditLogIterator → AuditLogIterator)
    (f : extern_fn) (raw : json) :
  (∀ r it, π (set_field r it) = π it) →
  preserves (keeps π) (merge field set_field f raw).
Proof.
  intros Hset. unfold merge. destruct (truthy raw); [|by apply preserves_ret].
  apply preserves_bind; [apply _ | by apply preserves_get_self |]. intros it.
  apply preserves_bind; [apply _ | by intros σ r σ' [= <- <-] |]. intros fresh.
  apply preserves_bind; [apply _ | by apply keeps_set_self |]. intros _.
  apply preserves_bind; [apply _ | by apply preserves_lift |]. intros items.
  by intros σ r σ' [= <- <-].
Qed.

Lemma merges_keep {A : Type} (π : AuditLogIterator → A) (payload : json) :
  (∀ r it, π (with_users r it) = π it) →
  (∀ r it, π (with_webhooks r it) = π it) →
  (∀ r it, π (with_integrations r it) = π it) →
  preserves (keeps π) (merges payload).
Proof.
  intros Hu Hw Hi. unfold merges.
  repeat first
    [ apply preserves_bind; [apply _ | | intros ?]
    | apply preserves_lift; apply _
    | apply keeps_merge; done ].
Qed.

Lemma anext_keeps_kwargs : preserves (keeps _kwargs) __anext__.
Proof.
  assert (Hm : ∀ field set_field f raw,
            (∀ r it, _kwargs (set_field r it) = _kwargs it) →
            preserves (keeps _kwargs) (merge field set_field f raw))
    by (intros; by apply keeps_merge).
  apply anext_preserves; try apply fill_preserves; try apply _;
    first [ apply keeps_await | intros; by apply keeps_set_self
          | intros; by apply Hm ].
Qed.

(** *** The requests of a run *)

Lemma filter_of_fill_args (it : AuditLogIterator) :
  filter_of (fill_args it) = _kwargs it.
Proof. unfold filter_of, fill_args. cbn. by destruct (_kwargs it) as [[? ?] ?]. Qed.

Lemma page_limit_le (l : option Z) : (page_limit l ≤ 100)%Z.
Proof.
  destruct l as [n|]; simpl; [|done].
  destruct (100 <? n)%Z eqn:E; [done|]. apply Z.ltb_ge in E. lia.
Qed.

(** X17.  Over any number of steps the iterator's filter arguments never
    change, at most one request is made per step, and every request
    carries those arguments and asks for at most 100 entries. *)
Theorem every_request_carries_the_filter (n : nat) (σ : state) :
  let σ' := (async_for n σ).2 in
  _kwargs (self σ') = _kwargs (self σ) ∧
  ∃ new, calls σ' = calls σ ++ new ∧ length new ≤ n ∧
         Forall (λ args, filter_of args = _kwargs (self σ) ∧
                         (arg_limit args ≤ 100)%Z) new.
Proof.
  cbv zeta. split; [exact (run_preserves _ anext_keeps_kwargs n σ)|].
  revert σ. induction n as [|n IH]; intros σ; cbn [async_for].
  - exists []. by rewrite app_nil_r.
  - assert (Hstep : ∀ r σ1, __anext__ σ = (r, σ1) →
              ∃ new, calls σ1 = calls σ ++ new ∧ length new ≤ 1 ∧
                     Forall (λ args, filter_of args = _kwargs (self σ) ∧
                                     (arg_limit args ≤ 100)%Z) new).
    { intros r σ1 E. rewrite (anext_calls _ _ _ E).
      destruct (_ && _); eexists; (split; [reflexivity|]); split;
        [ simpl; lia | | simpl; lia | by apply Forall_nil_2 ].
      apply Forall_cons. split; [|by apply Forall_nil_2].
      split; [apply filter_of_fill_args | apply page_limit_le]. }
    destruct (__anext__ σ) as [[e|x] σ1] eqn:E.
    + destruct (Hstep _ _ eq_refl) as (new1 & Hc1 & Hl1 & Hf1).
      destruct (IH σ1) as (new & Hc & Hl & Hf).
      destruct (async_for n σ1) as [[es stop] σ2]. cbn [snd] in *.
      exists (new1 ++ new). rewrite Hc, Hc1, app_assoc. split; [done|].
      split; [rewrite length_app; lia|].
      apply Forall_app. split; [done|].
      by rewrite (anext_keeps_kwargs _ _ _ E) in Hf.
    + destruct (Hstep _ _ eq_refl) as (new1 & Hc1 & Hl1 & Hf1).
      exists new1. cbn [snd]. split; [done|]. split; [lia | done].
Qed.

(** *** The store of dict objects *)

Lemma heap_extends_merge (field : AuditLogIterator → nat)
    (set_field : nat → AuditLogIterator → AuditLogIterator)
    (f : extern_fn) (raw : json) :
  preserves heap_extends (merge field set_field f raw).
Proof.
  intros σ r σ'. unfold merge. destruct (truthy raw); [|by intros [= <- <-]].
  unfold mbind, action_bind, get_self, copy_dict, set_self, lift, dict_update.
  cbn [self heap session calls].
  destruct (dict_by_id f raw) as [items|x]; intros [= <- <-];
    intros r0 d Hr; cbn [heap].
  - rewrite list_lookup_insert_ne; [by apply lookup_app_l_Some|].
    apply lookup_lt_Some in Hr. lia.
  - by apply lookup_app_l_Some.
Qed.

Lemma heap_extends_set_self (g : AuditLogIterator → AuditLogIterator) :
  preserves heap_extends (set_self g).
Proof. intros σ r σ' [= <- <-] r0 d Hr. exact Hr. Qed.

Lemma heap_extends_await (args : request_args) :
  preserves heap_extends (await_request args).
Proof.
  intros σ r σ'. unfold await_request.
  destruct (request args (session σ)) as [r' w].
  intros [= <- <-] r0 d Hr. exact Hr.
Qed.

Lemma fill_extends_heap : preserves heap_extends _fill.
Proof.
  apply fill_preserves; try apply _;
    first [ apply heap_extends_await | intros; apply heap_extends_merge
          | intros; apply heap_extends_set_self ].
Qed.

Lemma anext_extends_heap : preserves heap_extends __anext__.
Proof.
  apply anext_preserves; try apply fill_extends_heap; try apply _;
    first [ apply heap_extends_await | intros; apply heap_extends_merge
          | intros; apply heap_extends_set_self ].
Qed.

(** X18.  No dict object that exists is ever changed: whatever [_fill],
    [__anext__] or any number of steps do, and whether they succeed or
    fail, a mapping a caller took from the iterator still holds what it
    held. *)
Theorem existing_mappings_are_never_mutated (n : nat) (σ : state) (r : nat)
    (d : gmap Snowflake extern) :
  heap σ !! r = Some d →
  heap (_fill σ).2 !! r = Some d ∧
  heap (__anext__ σ).2 !! r = Some d ∧
  heap (async_for n σ).2 !! r = Some d.
Proof.
  intros Hr. split; [|split].
  - destruct (_fill σ) as [res σ'] eqn:E.
    exact (fill_extends_heap _ _ _ E r d Hr).
  - destruct (__anext__ σ) as [res σ'] eqn:E.
    exact (anext_extends_heap _ _ _ E r d Hr).
  - exact (run_preserves _ anext_extends_heap n σ r d Hr).
Qed.

(** *** The side mappings over a run *)

Lemma grows_merge (a : side_attr) (field : AuditLogIterator → nat)
    (set_field : nat → AuditLogIterator → AuditLogIterator)
    (f : extern_fn) (raw : json) :
  ((∀ r it, attr_ref a (set_field r it) = r) ∧ (∀ it, field it = attr_ref a it)) ∨
  (∀ r it, attr_ref a (set_field r it) = attr_ref a it) →
  preserves (grows a) (merge field set_field f raw).
Proof.
  intros Hcase σ r σ'. unfold merge.
  destruct (truthy raw); [|intros [= <- <-]; reflexivity].
  unfold mbind, action_bind, get_self, copy_dict, set_self, lift, dict_update.
  cbn [self heap session calls].
  set (c := default ∅ (heap σ !! field (self σ))).
  assert (Hgrow : ∀ v : gmap Snowflake extern, dom c ⊆ dom v →
            dom (default ∅ (heap σ !! attr_ref a (self σ))) ⊆
            dom (default ∅ ((heap σ ++ [v])
                              !! attr_ref a (set_field (length (heap σ)) (self σ))))).
  { intros v Hv. destruct Hcase as [[Hown Hfield]|Hother].
    - rewrite Hown, (list_lookup_middle (heap σ) [] v (length (heap σ))) by done.
      unfold c in Hv. by rewrite Hfield in Hv.
    - rewrite Hother.
      destruct (decide (attr_ref a (self σ) < length (heap σ))) as [Hlt|Hge].
      + by rewrite lookup_app_l.
      + rewrite (lookup_ge_None_2 (heap σ)) by lia. cbn [from_option id].
        rewrite dom_empty_L. apply empty_subseteq. }
  destruct (dict_by_id f raw) as [items|x]; intros [= <- <-];
    unfold grows, content; cbn [self heap].
  - rewrite (list_lookup_middle (heap σ) [] c (length (heap σ))) by done.
    cbn [from_option id]. rewrite insert_app_r_alt by lia. rewrite Nat.sub_diag.
    apply Hgrow. rewrite dom_union_L. apply union_subseteq_r.
  - by apply Hgrow.
Qed.

Lemma anext_grows (a : side_attr) : preserves (grows a) __anext__.
Proof.
  assert (Hs : ∀ g, (∀ it, attr_ref a (g it) = attr_ref a it) →
                    preserves (grows a) (set_self g)).
  { intros g Hg σ r σ' [= <- <-]. unfold grows, content. cbn [self heap].
    by rewrite Hg. }
  assert (Ha : ∀ args, preserves (grows a) (await_request args)).
  { intros args σ r σ'. unfold await_request.
    destruct (request args (session σ)) as [r' w]. intros [= <- <-].
    unfold grows, content. reflexivity. }
  apply anext_preserves; try apply fill_preserves; try apply _;
    first [ apply Ha
          | intros; apply Hs; intros; by destruct a
          | intros; apply grows_merge; destruct a;
            first [ left; split; intros; reflexivity | right; intros; reflexivity ] ].
Qed.

(** X19.  The users, webhooks and integrations the iterator shows only
    accumulate: an id that is in one of the mappings is still in it after
    any step and any number of steps, failed ones included. *)
Theorem side_mappings_only_grow (a : side_attr) (n : nat) (σ : state) :
  dom (content a σ) ⊆ dom (content a (__anext__ σ).2) ∧
  dom (content a σ) ⊆ dom (content a (async_for n σ).2).
Proof.
  split.
  - destruct (__anext__ σ) as [res σ'] eqn:E. exact (anext_grows a _ _ _ E).
  - exact (run_preserves _ (anext_grows a) n σ).
Qed.

(** *** The budget over a run *)

Lemma action_bind_inv {A B : Type} (c : action A) (f : A → action B)
    (σ σ' : state) (r : res B) :
  (c ≫= f) σ = (r, σ') →
  (∃ a σ1, c σ = (Ok a, σ1) ∧ f a σ1 = (r, σ')) ∨ (∃ e, c σ = (Raise e, σ') ∧ r = Raise e).
Proof.
  unfold mbind, action_bind. destruct (c σ) as [[a|e] σ1].
  - intros Hf. left. eauto.
  - intros [= <- <-]. right. eauto.
Qed.

Lemma py_len_nonneg (j : json) (z : Z) : py_len j = Ok z → (0 ≤ z)%Z.
Proof. destruct j; simpl; try discriminate; intros [= <-]; lia. Qed.

Lemma preserves_weaken {A : Type} (R R' : relation state) (c : action A) :
  (∀ σ σ', R σ σ' → R' σ σ') → preserves R c → preserves R' c.
Proof. intros HR Hc σ r σ' E. apply HR. exact (Hc _ _ _ E). Qed.

Lemma keeps_limit_shrinks (σ σ' : state) : keeps _limit σ σ' → budget_shrinks σ σ'.
Proof.
  unfold keeps, budget_shrinks, budget_le. intros ->.
  by destruct (_limit (self σ)).
Qed.

Lemma fill_rest_budget (n : option Z) (payload : json) (σ σ' : state) (r : res unit) :
  _limit (self σ) = n → fill_rest n payload σ = (r, σ') →
  budget_le (_limit (self σ')) n.
Proof.
  intros Hn. unfold fill_rest. intros Hrun.
  assert (Htail : preserves (keeps _limit)
            (entries ← lift (getitem payload "audit_log_entries");
             reversed ← lift (list_reverse entries);
             it ← get_self;
             set_self (with_buffer (_buffer it ++ reversed));;
             merges payload)).
  { repeat first
      [ apply preserves_bind; [apply _ | | intros ?]
      | apply preserves_lift; apply _
      | apply preserves_get_self; apply _
      | apply keeps_set_self; done
      | apply keeps_merge; done ]. }
  apply action_bind_inv in Hrun as [(u & σ1 & Hfirst & Hrest)|(e & Hfirst & _)].
  - apply Htail in Hrest. unfold keeps in Hrest. rewrite Hrest.
    destruct n as [n|].
    + revert Hfirst. unfold mbind, action_bind, lift, set_self.
      destruct (getitem payload "audit_log_entries") as [entries|x]; [|done].
      destruct (py_len entries) as [len|x] eqn:Hlen; [|done].
      intros [= _ <-]. cbn. apply py_len_nonneg in Hlen. lia.
    + injection Hfirst as _ <-. by rewrite Hn.
  - destruct n as [n|].
    + revert Hfirst. unfold mbind, action_bind, lift, set_self.
      destruct (getitem payload "audit_log_entries") as [entries|x].
      * destruct (py_len entries) as [len|x]; [done|].
        intros [= _ <-]. rewrite Hn. simpl. lia.
      * intros [= _ <-]. rewrite Hn. simpl. lia.
    + discriminate Hfirst.
Qed.

Lemma fill_budget : preserves budget_shrinks _fill.
Proof.
  intros σ r σ'. rewrite fill_unfold.
  unfold mbind at 1, action_bind at 1, await_request.
  destruct (request (fill_args (self σ)) (session σ)) as [[payload|e] w].
  - intros Hrest. exact (fill_rest_budget _ payload _ _ _ eq_refl Hrest).
  - intros [= <- <-]. unfold budget_shrinks, budget_le. cbn [self].
    destruct (_limit (self σ)); [lia | done].
Qed.

Lemma anext_budget : preserves budget_shrinks __anext__.
Proof.
  apply anext_preserves; try apply _; try apply fill_budget;
    intros; apply (preserves_weaken (keeps _limit)); try apply keeps_limit_shrinks;
    first [ apply keeps_await | by apply keeps_set_self | by apply keeps_merge ].
Qed.

(** X20.  The budget never grows: an iterator without a limit never gets
    one, a limit only goes down, and once it is below zero (a page was
    larger than asked for) it never comes back to zero, so the budget no
    longer ends the iteration. *)
Theorem budget_never_grows (n : nat) (σ : state) :
  let l := _limit (self σ) in
  let l' := _limit (self (async_for n σ).2) in
  (l = None ↔ l' = None) ∧
  (∀ a b, l = Some a → l' = Some b → (b ≤ a)%Z) ∧
  (∀ a, l = Some a → (a < 0)%Z → limit_nonzero l' = true).
Proof.
  cbv zeta. assert (Hle := run_preserves _ anext_budget n σ).
  unfold budget_shrinks, budget_le in Hle.
  destruct (_limit (self σ)) as [a|], (_limit (self (async_for n σ).2)) as [b|];
    try done.
  split; [done|]. split; [by intros ? ? [= <-] [= <-]|].
  intros ? [= <-] Ha. simpl. apply negb_true_iff, Z.eqb_neq. lia.
Qed.

(** *** One fetch, continued *)

Lemma fill_received (σ : state) (p : gmap string json) (es : list json) (w' : world) :
  request (fill_args (self σ)) (session σ) = (Ok (JObj p), w') →
  p !! "audit_log_entries" = Some (JList es) →
  _fill σ = merges (JObj p) {| self := after_fetch es (self σ);
                               heap := heap σ;
                               session := w';
                               calls := calls σ ++ [fill_args (self σ)] |}.
Proof.
  intros Hreq Hes. rewrite fill_unfold.
  unfold mbind at 1, action_bind at 1, await_request. rewrite Hreq.
  unfold fill_rest, after_fetch. cbn [getitem]. rewrite Hes.
  destruct (_limit (self σ)); reflexivity.
Qed.

Lemma after_fetch_queue (es : list json) (it : AuditLogIterator) :
  _buffer (after_fetch es it) = _buffer it ++ reverse es ∧
  _limit (after_fetch es it) = spend (_limit it) (length es) ∧
  _front (after_fetch es it) = _front it.
Proof. unfold after_fetch. by destruct (_limit it) eqn:E; cbn; rewrite ?E. Qed.

(** X21.  Once a page's entry list has arrived it is buffered and charged
    to the budget whatever happens next in [_fill]: if decoding the users,
    webhooks or integrations fails, no entry is lost, and the next
    [__anext__] serves from the buffer without a request. *)
Theorem received_entries_are_kept (σ : state) (p : gmap string json)
    (es : list json) (w' : world) :
  request (fill_args (self σ)) (session σ) = (Ok (JObj p), w') →
  p !! "audit_log_entries" = Some (JList es) →
  let σ' := (_fill σ).2 in
  _buffer (self σ') = _buffer (self σ) ++ reverse es ∧
  _limit (self σ') = spend (_limit (self σ)) (length es) ∧
  _front (self σ') = _front (self σ) ∧
  (es ≠ [] → calls (__anext__ σ').2 = calls σ').
Proof.
  intros Hreq Hes σ'.
  assert (Hk : ∀ (A : Type) (π : AuditLogIterator → A),
            (∀ r it, π (with_users r it) = π it) →
            (∀ r it, π (with_webhooks r it) = π it) →
            (∀ r it, π (with_integrations r it) = π it) →
            π (self σ') = π (after_fetch es (self σ))).
  { intros A π Hu Hw Hi. unfold σ'. rewrite (fill_received σ p es w' Hreq Hes).
    destruct (merges _ _) as [r σ1] eqn:E.
    exact (merges_keep π _ Hu Hw Hi _ _ _ E). }
  assert (Hb := Hk _ _buffer (λ _ _, eq_refl) (λ _ _, eq_refl) (λ _ _, eq_refl)).
  assert (Hl := Hk _ _limit (λ _ _, eq_refl) (λ _ _, eq_refl) (λ _ _, eq_refl)).
  assert (Hf := Hk _ _front (λ _ _, eq_refl) (λ _ _, eq_refl) (λ _ _, eq_refl)).
  destruct (after_fetch_queue es (self σ)) as (Ab & Al & Af).
  rewrite Hb, Hl, Hf, Ab, Al, Af. repeat split.
  intros Hne. destruct (__anext__ σ') as [r2 σ2] eqn:E. cbn [snd].
  rewrite (anext_calls _ _ _ E), Hb, Ab.
  rewrite bool_decide_eq_false_2; [by rewrite app_nil_r|].
  intros Hnil. apply app_eq_nil in Hnil as [_ Hnil].
  apply (f_equal reverse) in Hnil. rewrite reverse_involutive in Hnil. done.
Qed.

(** X22.  A page that brings no users (webhooks, integrations) leaves the
    corresponding attribute pointing at the same dict object, with the
    same items: a copy is made only when there is something to merge. *)
Theorem page_without_items_makes_no_copy (a : side_attr) (σ : state)
    (p : gmap string json) (es : list json) (w' : world)
    (iu iw ii : option (gmap Snowflake extern)) :
  request (fill_args (self σ)) (session σ) = (Ok (JObj p), w') →
  p !! "audit_log_entries" = Some (JList es) →
  side p "users" User_deserialize iu →
  side p "webhooks" Webhook_deserialize iw →
  side p "integrations" PartialGuildIntegration_deserialize ii →
  attr_items a iu iw ii = None →
  ∃ σ', _fill σ = (Ok (), σ') ∧
        attr_ref a (self σ') = attr_ref a (self σ) ∧
        ∀ old, heap σ !! attr_ref a (self σ) = Some old →
               heap σ' !! attr_ref a (self σ') = Some old.
Proof.
  intros Hreq Hes Hu Hw Hi Hnone.
  exists (fill_result σ w' es iu iw ii).
  split; [exact (fill_ok σ p es w' iu iw ii Hreq Hes Hu Hw Hi)|].
  assert (Href : attr_ref a (self (fill_result σ w' es iu iw ii))
                 = attr_ref a (self σ)).
  { unfold fill_result, after_fetch.
    destruct iu, iw, ii, (_limit (self σ)), a; cbn [attr_items] in Hnone;
      try discriminate; reflexivity. }
  split; [exact Href|]. intros old Hold. rewrite Href.
  unfold fill_result. by do 3 apply merge_result_frame.
Qed.

(** X23.  After the first fetch of a new iterator, each of its three
    mappings is what the deserialiser of the corresponding [AuditLog]
    attribute makes of the page's list, and empty when the page has
    none. *)
Theorem first_fetch_agrees_with_audit_log (a : side_attr)
    (guild : string) (w w' : world) (before user : option string)
    (action limit : option Z) (p : gmap string json) (es : list json)
    (iu iw ii : option (gmap Snowflake extern)) :
  let σ := AuditLogIterator_init guild w before user action limit in
  request (fill_args (self σ)) w = (Ok (JObj p), w') →
  p !! "audit_log_entries" = Some (JList es) →
  side p "users" User_deserialize iu →
  side p "webhooks" Webhook_deserialize iw →
  side p "integrations" PartialGuildIntegration_deserialize ii →
  ∃ σ', _fill σ = (Ok (), σ') ∧
        content a σ' = default ∅ (attr_items a iu iw ii) ∧
        (∀ d, iu = Some d → AuditLog_users (default JNull (p !! "users")) = Ok d) ∧
        (∀ d, iw = Some d → AuditLog_webhooks (default JNull (p !! "webhooks")) = Ok d) ∧
        (∀ d, ii = Some d →
           AuditLog_integrations (default JNull (p !! "integrations")) = Ok d).
Proof.
  intros σ Hreq Hes Hu Hw Hi.
  exists (fill_result σ w' es iu iw ii).
  split; [exact (fill_ok σ p es w' iu iw ii Hreq Hes Hu Hw Hi)|].
  split; [|repeat split; intros d ->; [apply Hu | apply Hw | apply Hi]].
  unfold content, fill_result, after_fetch, σ.
  destruct iu, iw, ii, limit, a; cbn; rewrite ?(right_id_L ∅ (∪)); reflexivity.
Qed.

(** *** Runs over any pages *)

Lemma map_res_pages (pages : list (gmap string json * list json * list AuditLogEntry)) :
  Forall (λ pg, good_page pg.1.1 pg.1.2 pg.2 ∧ pg.1.2 ≠ []) pages →
  map_res AuditLogEntry_deserialize (concat pages.*1.*2) = Ok (concat pages.*2).
Proof.
  induction 1 as [|[[p es] ents] pages [(_ & Hm & _) _] _ IH]; [done|].
  cbn [fmap list_fmap fst snd concat]. by apply map_res_app.
Qed.

(** X24.  For any pages of decodable entries followed by an empty page,
    and any limit that is not used up on the way: iteration yields the
    entries of all pages, page after page and each in the order the page
    has them, then signals exhaustion, having made one request per page
    and one more; the cursor is the id of the last entry and the budget is
    down by the number of entries. *)
Theorem paging_yields_every_page_in_order
    (guild : string) (w w_end : world) (before user : option string)
    (action limit : option Z)
    (pages : list (gmap string json * list json * list AuditLogEntry))
    (p_end : gmap string json) :
  serves w (pages.*1.*1 ++ [p_end]) w_end →
  Forall (λ pg, good_page pg.1.1 pg.1.2 pg.2 ∧ pg.1.2 ≠ []) pages →
  good_page p_end [] [] →
  budget_allows limit (length <$> pages.*2) →
  limit_nonzero (spend limit (length (concat pages.*2))) = true →
  ∀ n, length (concat pages.*2) < n →
    ∃ σ', async_for n (AuditLogIterator_init guild w before user action limit)
            = (concat pages.*2, Some StopAsyncIteration, σ') ∧
          map_res AuditLogEntry_deserialize (concat pages.*1.*2)
            = Ok (concat pages.*2) ∧
          length (calls σ') = S (length pages) ∧
          _front (self σ') = front_after (concat pages.*2) before ∧
          _limit (self σ') = spend limit (length (concat pages.*2)).
Proof.
  intros Hs Hgood Hend Hbudget Hlast n Hn.
  destruct (paging_to_empty_page pages p_end
              (AuditLogIterator_init guild w before user action limit)
              (guild, user, action) limit before w [] w_end) with (n := n)
    as (σ' & Hrun & Hv); try done.
  exists σ'. split; [exact Hrun|]. split; [by apply map_res_pages|].
  injection Hv as _ Hl _ Hf _ Hc. rewrite Hc, Hf, Hl.
  repeat split. cbn [app]. rewrite length_app, requests_length, !length_fmap.
  simpl. lia.
Qed.

(** X25.  For any limit and any pages that hold exactly that many
    entries: iteration yields them all, with one request per page, each
    for the budget that was left (at most 100) from the cursor reached,
    and then ends for good: the budget is zero, and no later step
    requests or yields anything. *)
Theorem paging_stops_when_the_budget_is_spent
    (guild : string) (w w_end : world) (before user : option string)
    (action : option Z) (budget : Z)
    (pages : list (gmap string json * list json * list AuditLogEntry)) :
  serves w (pages.*1.*1) w_end →
  Forall (λ pg, good_page pg.1.1 pg.1.2 pg.2 ∧ pg.1.2 ≠ []) pages →
  Z.of_nat (length (concat pages.*2)) = budget →
  ∀ n, length (concat pages.*2) < n →
    ∃ σ', async_for n (AuditLogIterator_init guild w before user action (Some budget))
            = (concat pages.*2, Some StopAsyncIteration, σ') ∧
          _limit (self σ') = Some 0%Z ∧
          session σ' = w_end ∧
          calls σ' = requests (guild, user, action) (Some budget) before pages.*2 ∧
          length (calls σ') = length pages ∧
          ∀ k, async_for k σ' =
                 ([], match k with O => None | S _ => Some StopAsyncIteration end, σ').
Proof.
  intros Hs Hgood Htotal n Hn.
  destruct (paging_to_spent_budget pages
              (AuditLogIterator_init guild w before user action (Some budget))
              (guild, user, action) budget before w [] w_end) with (n := n)
    as (σ' & Hrun & Hv); try done.
  exists σ'. injection Hv as _ Hl Hb _ Hw Hc.
  rewrite Hc. cbn [app]. repeat split; try done.
  - by rewrite requests_length, !length_fmap.
  - intros [|k]; [done|]. cbn [async_for].
    by rewrite (anext_budget_spent σ' Hb Hl).
Qed.

End properties.

(** ** Worked examples on the reference instance *)

#[local] Existing Instances stub_collaborators stub_session.

Ltac stub_good_page :=
  split; [reflexivity|]; split; [reflexivity|];
  repeat split; exists None; reflexivity.

Ltac stub_serves :=
  repeat (eapply serves_cons; [intros args; reflexivity|]); apply serves_nil.

(** C10 on a payload whose ["target_id"] is the empty string. *)
Lemma target_id_falsy_kept_witness :
  ∃ e, AuditLogEntry_deserialize
         (JObj (<["target_id" := JStr ""]> (stub_entry_map 5))) = Ok e ∧
       entry_target_id e = VJson (JStr "").
Proof.
  eexists. split; [reflexivity|].
  refine (proj1 (target_id_falsy_kept
                   (<["target_id" := JStr ""]> (stub_entry_map 5)) _ _)
            (JStr "") _ _); reflexivity.
Defined.

(** C10 as stated fails on a null: the key is present and the target id
    is [None] all the same. *)
Lemma target_id_null_counterexample :
  let payload := <["target_id" := JNull]> (stub_entry_map 5) in
  is_Some (payload !! "target_id") ∧
  entry_target_id <$> AuditLogEntry_deserialize (JObj payload) = Ok VNone.
Proof. cbv zeta. split; [eexists|]; reflexivity. Qed.

(** C6 on a colour change whose old value is null. *)
Lemma change_null_stays_none_witness :
  ∃ c, AuditLogChange_deserialize
         (JObj (<["key" := JStr "color"]>
                  (<["old_value" := JNull]> {[ "new_value" := JInt 255 ]}))) = Ok c ∧
       change_key_of c = KnownKey AuditLogChangeKey.COLOR ∧
       change_new_value c = VExtern (JInt 255) ∧
       change_old_value c = VNone.
Proof.
  eexists. split; [reflexivity|].
  assert (Hkey : (<["key" := JStr "color"]>
                    (<["old_value" := JNull]> {[ "new_value" := JInt 255 ]})
                  : gmap string json) !! "key" = Some (JStr "color"))
    by reflexivity.
  edestruct (proj1 (change_null_stays_none _ (JStr "color") Hkey))
    as (Hk & _ & Ho); [reflexivity|].
  split; [exact Hk|]. split; [reflexivity | exact (Ho eq_refl)].
Defined.

(** C1 on three pages of 100, 100 and 37 entries, newest first, and an
    empty fourth page. *)
Lemma paging_yields_pages_as_returned_witness :
  ∃ σ', async_for 238
          (stub_iterator [stub_page (descending 237 100);
                          stub_page (descending 137 100);
                          stub_page (descending 37 37);
                          empty_page] None)
          = ((stub_decoded <$> descending 237 100)
               ++ (stub_decoded <$> descending 137 100)
               ++ (stub_decoded <$> descending 37 37),
             Some StopAsyncIteration, σ') ∧
        length ((stub_decoded <$> descending 237 100)
                  ++ (stub_decoded <$> descending 137 100)
                  ++ (stub_decoded <$> descending 37 37)) = 237 ∧
        map_res AuditLogEntry_deserialize
          ((stub_entry <$> descending 237 100)
             ++ (stub_entry <$> descending 137 100)
             ++ (stub_entry <$> descending 37 37))
          = Ok ((stub_decoded <$> descending 237 100)
                  ++ (stub_decoded <$> descending 137 100)
                  ++ (stub_decoded <$> descending 37 37)) ∧
        length (calls σ') = 4.
Proof.
  refine (paging_yields_pages_as_returned "guild"
            [stub_page (descending 237 100); stub_page (descending 137 100);
             stub_page (descending 37 37); empty_page] [] None None None
            (stub_page_map (descending 237 100))
            (stub_page_map (descending 137 100))
            (stub_page_map (descending 37 37))
            (stub_page_map [])
            (stub_entry <$> descending 237 100)
            (stub_entry <$> descending 137 100)
            (stub_entry <$> descending 37 37)
            (stub_decoded <$> descending 237 100)
            (stub_decoded <$> descending 137 100)
            (stub_decoded <$> descending 37 37)
            _ _ _ _ _ _ _ _ 238 _);
    [ stub_serves | stub_good_page | stub_good_page | stub_good_page
    | stub_good_page | reflexivity | reflexivity | reflexivity | lia ].
Defined.

(** C1 as stated fails on the same pages: the identifiers come out from
    237 down to 1, the order in which the pages hold them, and not with
    each page turned oldest first. *)
Lemma paging_order_counterexample :
  let pages := [stub_page (descending 237 100); stub_page (descending 137 100);
                stub_page (descending 37 37); empty_page] in
  let run := async_for 238 (stub_iterator pages None) in
  run.1.2 = Some StopAsyncIteration ∧
  entry_id <$> run.1.1 = descending 237 237 ∧
  entry_id <$> run.1.1 ≠
    reverse (descending 237 100) ++ reverse (descending 137 100)
      ++ reverse (descending 37 37).
Proof.
  cbv zeta. split; [vm_compute; reflexivity|].
  split; [vm_compute; reflexivity|].
  vm_compute. discriminate.
Qed.






(** C4 on a second fetch that brings user 11 after a first one that
    brought user 10. *)
Lemma merge_is_copy_on_write_witness :
  let new : gmap Z json := {[ 11%Z := stub_user 11 ]} in
  let old : gmap Z json := {[ 10%Z := stub_user 10 ]} in
  let σ := stub_after_first_fetch in
  ∃ σ', _fill σ = (Ok (), σ') ∧
        heap σ' !! attr_ref attr_users (self σ') = Some (new ∪ old) ∧
        (∀ k, (new ∪ old) !! k =
                match new !! k with Some x => Some x | None => old !! k end) ∧
        heap σ' !! attr_ref attr_users (self σ) = Some old ∧
        attr_ref attr_users (self σ') ≠ attr_ref attr_users (self σ) ∧
        (∀ r d, heap σ !! r = Some d → heap σ' !! r = Some d) ∧
        (old = ∅ → heap σ' !! attr_ref attr_users (self σ') = Some new).
Proof.
  cbv zeta.
  refine (merge_is_copy_on_write attr_users stub_after_first_fetch
            (stub_users_page_map [0] [11])%Z (stub_entry <$> [0%Z]) []
            (Some {[ 11%Z := stub_user 11 ]}) None None
            {[ 11%Z := stub_user 11 ]} {[ 10%Z := stub_user 10 ]}
            _ _ _ _ _ _ _).
  - reflexivity.
  - reflexivity.
  - split; reflexivity.
  - reflexivity.
  - reflexivity.
  - reflexivity.
  - reflexivity.
Defined.


(** C7 on an hour of [max_age] and on five [max_uses]. *)
Lemma max_uses_max_age_zero_conventions_witness :
  conv_max_uses (JInt 0) = Ok VInf ∧
  conv_max_uses (JInt 5) = Ok (VJson (JInt 5)) ∧
  conv_max_age (JInt 0) = Ok VNone ∧
  conv_max_age (JInt 3600) = Ok (VTimedelta 3600).
Proof.
  destruct max_uses_max_age_zero_conventions
    as (_ & _ & Hu0 & Hu & Ha0 & _ & Ha & _).
  split; [exact Hu0|]. split; [apply Hu; lia|]. split; [exact Ha0|].
  apply Ha; [lia | apply Z.div_le_upper_bound; lia].
Defined.



(** ** Worked examples of the further properties *)

Section flaky_examples.
#[local] Existing Instances stub_collaborators flaky_session.

(** X14 on a session whose first answer is a failure. *)
Lemma fetch_failure_reaches_the_consumer_witness :
  let σ := AuditLogIterator_init "guild"
             [Raise (ExternError 503); Ok (stub_page [1%Z])] None None None None in
  __anext__ σ =
    (Raise (ExternError 503),
     {| self := self σ; heap := heap σ; session := [Ok (stub_page [1%Z])];
        calls := [fill_args (self σ)] |}).
Proof.
  cbv zeta.
  apply fetch_failure_reaches_the_consumer; reflexivity.
Defined.
End flaky_examples.

Section strict_examples.
#[local] Existing Instances strict_collaborators stub_session.

(** X21 on a page of two entries whose user has no id. *)
Lemma received_entries_are_kept_witness :
  let page : gmap string json :=
    <["users" := JList [JObj ∅]]> (stub_page_map [2; 1]%Z) in
  let σ := AuditLogIterator_init "guild" [JObj page] None None None (Some 5%Z) in
  (_fill σ).1 = Raise (KeyError "id") ∧
  _buffer (self (_fill σ).2) = [] ++ reverse [stub_entry 2; stub_entry 1] ∧
  _limit (self (_fill σ).2) = Some 3%Z.
Proof.
  cbv zeta. split; [reflexivity|].
  edestruct (received_entries_are_kept (H := strict_collaborators) (H0 := stub_session)
              (AuditLogIterator_init (H := strict_collaborators) (H0 := stub_session)
                 "guild"
                 [JObj (<["users" := JList [JObj ∅]]> (stub_page_map [2; 1]%Z))]
                 None None None (Some 5%Z))
              (<["users" := JList [JObj ∅]]> (stub_page_map [2; 1]%Z))
              [stub_entry 2; stub_entry 1] [])
    as (Hb & Hl & _); [reflexivity | reflexivity |].
  split; [exact Hb | exact Hl].
Defined.
End strict_examples.

(** X6 on three users, the first and the last with the same id. *)
Lemma dict_by_id_is_keyed_by_id_witness :
  let first := JObj (<["name" := JStr "a"]> {[ "id" := JInt 10 ]}) in
  let second := JObj (<["name" := JStr "b"]> {[ "id" := JInt 10 ]}) in
  ∃ d, dict_by_id User_deserialize (JList [first; stub_user 11; second]) = Ok d ∧
       d !! 10%Z = Some second ∧ d !! 11%Z = Some (stub_user 11) ∧ size d ≤ 3.
Proof.
  cbv zeta.
  set (items := [JObj (<["name" := JStr "a"]> {[ "id" := JInt 10 ]});
                 stub_user 11;
                 JObj (<["name" := JStr "b"]> {[ "id" := JInt 10 ]})]).
  assert (Hiter : py_iter (JList items) = Ok items) by reflexivity.
  assert (Hmap : map_res (extern_call User_deserialize) items = Ok items)
    by reflexivity.
  destruct (proj1 (dict_by_id_is_keyed_by_id User_deserialize _ _ Hiter) _ Hmap)
    as (d & Hd & Hlast & _ & _ & Hsize & _).
  exists d. split; [exact Hd|]. rewrite !Hlast.
  split; [reflexivity|]. split; [reflexivity | exact Hsize].
Defined.

(** X10 on an entry with two changes. *)
Lemma entry_changes_follow_the_payload_witness :
  let named : gmap string json := <["key" := JStr "name"]> {[ "new_value" := JStr "x" ]} in
  let other : gmap string json := {[ "key" := JStr "mystery" ]} in
  ∃ e, AuditLogEntry_deserialize
         (JObj (<["changes" := JList [JObj named; JObj other]]> (stub_entry_map 5)))
       = Ok e ∧
       length (entry_changes e) = 2 ∧
       ∃ ch, entry_changes e !! 1 = Some ch ∧
             AuditLogChange_deserialize (JObj other) = Ok ch.
Proof.
  cbv zeta. eexists. split; [reflexivity|].
  match goal with
  | |- length (entry_changes ?e) = 2 ∧ _ =>
      assert (He : AuditLogEntry_deserialize
                     (JObj (<["changes" := JList [JObj (<["key" := JStr "name"]>
                                                          {[ "new_value" := JStr "x" ]});
                                                  JObj {[ "key" := JStr "mystery" ]}]]>
                              (stub_entry_map 5))) = Ok e) by reflexivity
  end.
  edestruct (proj2 (entry_changes_follow_the_payload _ _ He))
    as (Hlen & Hat & _); [reflexivity|].
  split; [exact Hlen|]. apply (Hat 1). reflexivity.
Defined.

(** X11 on an entry whose second change has no key, and which has neither
    ["user_id"] nor ["id"]. *)
Lemma failing_change_fails_the_entry_witness :
  AuditLogEntry_deserialize
    (JObj (<["changes" := JList [JObj {[ "key" := JStr "name" ]}; JObj ∅]]>
             {[ "action_type" := JInt 1 ]}))
  = Raise (KeyError "key").
Proof.
  eapply (failing_change_fails_the_entry (H := stub_collaborators) _
            [JObj {[ "key" := JStr "name" ]}] (JObj ∅) []);
    first [ reflexivity | by eexists ].
Defined.

(** X12 on a target id that parses and on one that does not. *)
Lemma truthy_target_id_is_parsed_witness :
  (∃ e, AuditLogEntry_deserialize
          (JObj (<["target_id" := JStr "12"]> (stub_entry_map 5))) = Ok e ∧
        entry_target_id e = VSnowflake 12%Z) ∧
  AuditLogEntry_deserialize (JObj (<["target_id" := JStr "x"]> (stub_entry_map 5)))
  = Raise ValueError.
Proof.
  split.
  - assert (Hv : (<["target_id" := JStr "12"]> (stub_entry_map 5) : gmap string json)
                   !! "target_id" = Some (JStr "12")) by reflexivity.
    assert (Ht : truthy (JStr "12") = true) by reflexivity.
    eexists. split; [reflexivity|].
    edestruct (proj1 (truthy_target_id_is_parsed _ _ Hv Ht)) as (s & Hs & Hid);
      [reflexivity|].
    rewrite Hid. f_equal. by injection Hs.
  - assert (Hv : (<["target_id" := JStr "x"]> (stub_entry_map 5) : gmap string json)
                   !! "target_id" = Some (JStr "x")) by reflexivity.
    assert (Ht : truthy (JStr "x") = true) by reflexivity.
    apply (proj2 (truthy_target_id_is_parsed _ _ Hv Ht)); [by eexists | reflexivity].
Defined.

(** X13 on an action type that is a list, with and without options. *)
Lemma unhashable_action_type_fails_with_options_witness :
  let base : gmap string json :=
    <["id" := JInt 1]> (<["user_id" := JInt 2]> {[ "action_type" := JList [] ]}) in
  AuditLogEntry_deserialize (JObj (<["options" := JObj ∅]> base)) = Raise TypeError ∧
  entry_action_type <$> AuditLogEntry_deserialize (JObj base)
  = Ok (RawType (JList [])).
Proof.
  cbv zeta.
  set (base := <["id" := JInt 1]>
                 (<["user_id" := JInt 2]> {[ "action_type" := JList [] ]})
               : gmap string json).
  split.
  - assert (Hat : (<["options" := JObj ∅]> base) !! "action_type" = Some (JList []))
      by reflexivity.
    assert (Hh : hashable (JList []) = false) by reflexivity.
    assert (Ht : (<["options" := JObj ∅]> base) !! "target_id" = None) by reflexivity.
    apply (proj1 (unhashable_action_type_fails_with_options _ _ Hat Hh Ht) (JObj ∅));
      [reflexivity | discriminate].
  - assert (Hat : base !! "action_type" = Some (JList [])) by reflexivity.
    assert (Hh : hashable (JList []) = false) by reflexivity.
    assert (Ht : base !! "target_id" = None) by reflexivity.
    rewrite (proj2 (unhashable_action_type_fails_with_options
                      (H := stub_collaborators) _ _ Hat Hh Ht)
               (JInt 2) 2%Z (JInt 1) 1%Z); reflexivity.
Defined.

(** X7 on two entries, and on three of which the second is empty. *)
Lemma audit_log_entries_by_id_witness :
  (∃ d, AuditLog_entries (JList [stub_entry 3; stub_entry 2]) = Ok d ∧
        d !! 3%Z = Some (stub_decoded 3) ∧ size d = 2) ∧
  AuditLog_entries (JList [stub_entry 3; JObj ∅; stub_entry 1])
  = Raise (KeyError "action_type").
Proof.
  split.
  - assert (Hiter : py_iter (JList [stub_entry 3; stub_entry 2])
                    = Ok [stub_entry 3; stub_entry 2]) by reflexivity.
    assert (Hmap : map_res AuditLogEntry_deserialize [stub_entry 3; stub_entry 2]
                   = Ok [stub_decoded 3; stub_decoded 2]) by reflexivity.
    destruct (proj1 (audit_log_entries_by_id _ _ Hiter) _ Hmap)
      as (d & Hd & Hlast & _ & _ & Hsize).
    exists d. split; [exact Hd|]. rewrite Hlast. split; [reflexivity|].
    apply Hsize. apply NoDup_cons. split; [|apply NoDup_singleton].
    rewrite list_elem_of_singleton. discriminate.
  - assert (Hiter : py_iter (JList [stub_entry 3; JObj ∅; stub_entry 1])
                    = Ok ([stub_entry 3] ++ JObj ∅ :: [stub_entry 1])) by reflexivity.
    assert (Hgood : map_res AuditLogEntry_deserialize [stub_entry 3]
                    = Ok [stub_decoded 3]) by reflexivity.
    assert (Hbad : AuditLogEntry_deserialize (JObj ∅)
                   = Raise (KeyError "action_type")) by reflexivity.
    exact (proj2 (audit_log_entries_by_id _ _ Hiter) _ _ _ _ _ eq_refl Hgood Hbad).
Defined.

(** X23 on a first page that brings user 10. *)
Lemma first_fetch_agrees_with_audit_log_witness :
  let σ := stub_iterator [JObj (stub_users_page_map [2; 1] [10])]%Z None in
  ∃ σ' d, _fill σ = (Ok (), σ') ∧ content attr_users σ' = d ∧
          AuditLog_users (JList [stub_user 10]) = Ok d ∧
          d !! 10%Z = Some (stub_user 10).
Proof.
  cbv zeta.
  edestruct (first_fetch_agrees_with_audit_log (H := stub_collaborators)
               (H0 := stub_session) attr_users "guild"
               [JObj (stub_users_page_map [2; 1] [10])]%Z [] None None None None
               (stub_users_page_map [2; 1] [10])%Z (stub_entry <$> [2; 1]%Z)
               (Some {[ 10%Z := stub_user 10 ]}) None None)
    as (σ' & Hfill & Hc & Hu & _);
    [reflexivity | reflexivity | split; reflexivity | reflexivity | reflexivity |].
  exists σ', {[ 10%Z := stub_user 10 ]}.
  split; [exact Hfill|]. split; [exact Hc|]. split; [exact (Hu _ eq_refl)|].
  reflexivity.
Defined.

(** X15 on an empty response. *)
Lemma page_without_entry_list_is_refused_witness :
  __anext__ (stub_iterator [JObj ∅] (Some 5%Z))
  = (Raise (KeyError "audit_log_entries"),
     {| self := self (stub_iterator [JObj ∅] (Some 5%Z));
        heap := heap (stub_iterator [JObj ∅] (Some 5%Z));
        session := [];
        calls := [fill_args (self (stub_iterator [JObj ∅] (Some 5%Z)))] |}).
Proof.
  assert (Hb : _buffer (self (stub_iterator [JObj ∅] (Some 5%Z))) = []) by reflexivity.
  assert (Hl : limit_nonzero (_limit (self (stub_iterator [JObj ∅] (Some 5%Z)))) = true)
    by reflexivity.
  assert (Hreq : request (fill_args (self (stub_iterator [JObj ∅] (Some 5%Z))))
                   (session (stub_iterator [JObj ∅] (Some 5%Z)))
                 = (Ok (JObj ∅), [])) by reflexivity.
  apply (proj1 (page_without_entry_list_is_refused _ _ _ Hb Hl Hreq) ∅); reflexivity.
Defined.

(** X16 on a page whose first entry is empty. *)
Lemma undecodable_entry_is_dropped_witness :
  let page : gmap string json :=
    {[ "audit_log_entries" := JList [JObj ∅; stub_entry 1] ]} in
  let σ := (_fill (stub_iterator [JObj page] None)).2 in
  __anext__ σ = (Raise (KeyError "action_type"), with_self (with_buffer [stub_entry 1]) σ) ∧
  (__anext__ (__anext__ σ).2).1 = Ok (stub_decoded 1).
Proof.
  cbv zeta. split; [|reflexivity].
  apply (undecodable_entry_is_dropped
           (_fill (stub_iterator
                     [JObj {[ "audit_log_entries" := JList [JObj ∅; stub_entry 1] ]}]
                     None)).2
           [stub_entry 1] (JObj ∅) (KeyError "action_type")); reflexivity.
Defined.

(** X22 on a second page that brings a user and no webhook. *)
Lemma page_without_items_makes_no_copy_witness :
  let σ := stub_after_first_fetch in
  ∃ σ', _fill σ = (Ok (), σ') ∧
        attr_ref attr_webhooks (self σ') = attr_ref attr_webhooks (self σ) ∧
        heap σ' !! attr_ref attr_webhooks (self σ') = Some ∅.
Proof.
  cbv zeta.
  edestruct (page_without_items_makes_no_copy (H := stub_collaborators)
               (H0 := stub_session) attr_webhooks stub_after_first_fetch
               (stub_users_page_map [0] [11])%Z (stub_entry <$> [0%Z]) []
               (Some {[ 11%Z := stub_user 11 ]}) None None)
    as (σ' & Hfill & Href & Hold);
    [reflexivity | reflexivity | split; reflexivity | reflexivity | reflexivity
    | reflexivity |].
  exists σ'. split; [exact Hfill|]. split; [exact Href|]. apply Hold. reflexivity.
Defined.

(** X18 on the users mapping taken after the first fetch. *)
Lemma existing_mappings_are_never_mutated_witness :
  let σ := stub_after_first_fetch in
  heap σ !! users (self σ) = Some {[ 10%Z := stub_user 10 ]} ∧
  heap (async_for 5 σ).2 !! users (self σ) = Some {[ 10%Z := stub_user 10 ]} ∧
  users (self (async_for 5 σ).2) ≠ users (self σ).
Proof.
  cbv zeta.
  assert (Hr : heap stub_after_first_fetch !! users (self stub_after_first_fetch)
               = Some {[ 10%Z := stub_user 10 ]}) by reflexivity.
  split; [exact Hr|]. split.
  - exact (proj2 (proj2 (existing_mappings_are_never_mutated 5 _ _ _ Hr))).
  - vm_compute. discriminate.
Defined.

(** X24 on pages of two and of one entry, then an empty page, with a limit
    of ten. *)
Lemma paging_yields_every_page_in_order_witness :
  ∃ σ', async_for 4 (stub_iterator [stub_page [5; 4]; stub_page [3]; empty_page]%Z
                       (Some 10%Z))
          = (stub_decoded <$> [5; 4; 3]%Z, Some StopAsyncIteration, σ') ∧
        length (calls σ') = 3 ∧
        _front (self σ') = Some "3" ∧
        _limit (self σ') = Some 7%Z.
Proof.
  edestruct (paging_yields_every_page_in_order (H := stub_collaborators)
               (H0 := stub_session) "guild"
               [stub_page [5; 4]; stub_page [3]; empty_page]%Z [] None None None
               (Some 10%Z)
               [ (stub_page_map [5; 4], stub_entry <$> [5; 4], stub_decoded <$> [5; 4]);
                 (stub_page_map [3], stub_entry <$> [3], stub_decoded <$> [3]) ]%Z
               (stub_page_map [])) with (n := 4)
    as (σ' & Hrun & _ & Hcalls & Hfront & Hlimit).
  - stub_serves.
  - apply Forall_cons. split.
    { split. { stub_good_page. } discriminate. }
    apply Forall_cons. split.
    { split. { stub_good_page. } discriminate. }
    apply Forall_nil_2.
  - stub_good_page.
  - repeat split.
  - reflexivity.
  - simpl. lia.
  - exists σ'. split; [exact Hrun|]. split; [exact Hcalls|].
    split; [exact Hfront | exact Hlimit].
Defined.

(** X25 on the same pages with a limit of three. *)
Lemma paging_stops_when_the_budget_is_spent_witness :
  ∃ σ', async_for 9 (stub_iterator [stub_page [5; 4]; stub_page [3]]%Z (Some 3%Z))
          = (stub_decoded <$> [5; 4; 3]%Z, Some StopAsyncIteration, σ') ∧
        _limit (self σ') = Some 0%Z ∧
        arg_limit <$> calls σ' = [3; 1]%Z ∧
        async_for 2 σ' = ([], Some StopAsyncIteration, σ').
Proof.
  edestruct (paging_stops_when_the_budget_is_spent (H := stub_collaborators)
               (H0 := stub_session) "guild"
               [stub_page [5; 4]; stub_page [3]]%Z [] None None None 3%Z
               [ (stub_page_map [5; 4], stub_entry <$> [5; 4], stub_decoded <$> [5; 4]);
                 (stub_page_map [3], stub_entry <$> [3], stub_decoded <$> [3]) ]%Z)
    with (n := 9)
    as (σ' & Hrun & Hl & _ & Hcalls & _ & Hdone).
  - stub_serves.
  - apply Forall_cons. split.
    { split. { stub_good_page. } discriminate. }
    apply Forall_cons. split.
    { split. { stub_good_page. } discriminate. }
    apply Forall_nil_2.
  - reflexivity.
  - simpl. lia.
  - exists σ'. split; [exact Hrun|]. split; [exact Hl|].
    split; [by rewrite Hcalls | exact (Hdone 2)].
Defined.

(** X9 on a position that is no number and on a name that is a list. *)
Lemma change_failures_propagate_witness :
  AuditLogChange_deserialize
    (JObj (<["key" := JStr "position"]> {[ "new_value" := JStr "high" ]}))
  = Raise ValueError ∧
  AuditLogChange_deserialize
    (JObj (<["key" := JStr "name"]> {[ "new_value" := JList [JInt 1] ]}))
  = Ok {| change_key_of := KnownKey AuditLogChangeKey.NAME;
          change_new_value := VJson (JList [JInt 1]);
          change_old_value := VNone |}.
Proof.
  split.
  - destruct (change_failures_propagate (H := stub_collaborators)
                (<["key" := JStr "position"]> {[ "new_value" := JStr "high" ]}))
      as (_ & _ & _ & Hconv & _).
    destruct (Hconv AuditLogChangeKey.POSITION conv_int) as [Hnew _];
      [reflexivity | reflexivity |].
    apply Hnew; [discriminate | reflexivity].
  - destruct (change_failures_propagate (H := stub_collaborators)
                (<["key" := JStr "name"]> {[ "new_value" := JList [JInt 1] ]}))
      as (_ & _ & _ & _ & Hraw).
    apply (Hraw AuditLogChangeKey.NAME); reflexivity.
Defined.

(** X20 on a limit of five overrun by a page of a hundred. *)
Lemma budget_never_grows_witness :
  let σ := stub_iterator [stub_page (descending 100 100)] (Some 5%Z) in
  _limit (self (async_for 3 σ).2) = Some (-95)%Z ∧
  limit_nonzero (_limit (self (async_for 200 (async_for 3 σ).2).2)) = true.
Proof.
  cbv zeta.
  assert (Hl : _limit (self (async_for 3 (stub_iterator [stub_page (descending 100 100)]
                                            (Some 5%Z))).2) = Some (-95)%Z)
    by (vm_compute; reflexivity).
  split; [exact Hl|].
  apply (proj2 (proj2 (budget_never_grows (H := stub_collaborators)
                         (H0 := stub_session) 200 _)) _ Hl). lia.
Defined.

(** X17 on an iterator filtered by user and action type. *)
Lemma every_request_carries_the_filter_witness :
  let σ := AuditLogIterator_init "guild" [stub_page [2; 1]; stub_page [0]]%Z
             None (Some "7") (Some 1%Z) (Some 250%Z) in
  ∃ new, calls (async_for 4 σ).2 = [] ++ new ∧ length new ≤ 4 ∧
         Forall (λ args, filter_of args = ("guild", Some "7", Some 1%Z) ∧
                         (arg_limit args ≤ 100)%Z) new.
Proof.
  cbv zeta.
  exact (proj2 (every_request_carries_the_filter (H := stub_collaborators)
                  (H0 := stub_session) 4
                  (AuditLogIterator_init (H := stub_collaborators) (H0 := stub_session)
                     "guild" [stub_page [2; 1]; stub_page [0]]%Z
                     None (Some "7") (Some 1%Z) (Some 250%Z)))).
Defined.

(** X19 on user 10, known after the first fetch. *)
Lemma side_mappings_only_grow_witness :
  let σ := stub_after_first_fetch in
  10%Z ∈ dom (content attr_users σ) ∧
  10%Z ∈ dom (content attr_users (async_for 5 σ).2).
Proof.
  cbv zeta.
  assert (Hin : 10%Z ∈ dom (content attr_users stub_after_first_fetch)).
  { apply elem_of_dom. eexists. reflexivity. }
  split; [exact Hin|].
  exact (proj2 (side_mappings_only_grow (H := stub_collaborators) (H0 := stub_session)
                  attr_users 5 stub_after_first_fetch) _ Hin).
Defined.
